(** * ASREQRoast: the capture-and-parse pipeline of [asreqroast.py]

    A shallow embedding of the Python module: the string helpers it takes from
    the [str] type, the field parser, the hash formatter, the output sink, the
    capture loop of [TsharkListener] and its shutdown, over an explicit world
    (file system, console, clock, process table).

    What the world stands for:
    - files are keyed by their [pathlib] path, two paths being the same file
      exactly when they are equal (no links, no [..] resolution);
    - whether an open or a [mkdir] fails is an oracle [io_error], and the
      text of the clock an oracle [clock], both parameters of the loop;
    - the decoder's output is a list of events: the lines it prints, and the
      signals that reach the program while it waits for the next line;
    - the process table changes only through the calls of the program: a
      SIGTERM that is sent marks its target as signalled, and what the
      target does about it, or an exit of its own, shows only as the status
      a later world starts from;
    - exceptions other than those of the modelled steps (a decoding error
      of the pipe, a failing [print], a path that [open] itself rejects)
      are outside the model.

    [TsharkListener.start] launches the decoder through an oracle [spawn]
    for the pid the system gives.  Of [main], the part from
    [ensure_output_dir] on is modelled; [check_tshark], [prompt_interface]
    and the argument parsing, which write to the error stream, read the
    keyboard and end the process, are not. *)

From Stdlib Require Import Ascii String ZArith Lia.
From Stdlib Require DecimalString.
From stdpp Require Import base option list gmap strings.

Local Open Scope Z_scope.

(** ** Python [str] methods used by the module

    A Python string is a sequence of code points.  The embedding keeps the
    code points below 256, one [ascii] each; the predicates below are the
    restriction of Python's tables to that range. *)

Module PyStr.

(** [str.isspace] on one character: code points 9-13, 28-32, 133 and 160. *)
Definition isspace (c : ascii) : bool :=
  match c with
  | "009" | "010" | "011" | "012" | "013"
  | "028" | "029" | "030" | "031" | " "
  | "133" | "160" => true
  | _ => false
  end%char.

(** [str.lower] on one character: A-Z and the Latin-1 capitals
    (192-222 except the multiplication sign 215) move up by 32. *)
Definition lower_char (c : ascii) : ascii :=
  let n := N_of_ascii c in
  if ((65 <=? n) && (n <=? 90))%N
     || ((192 <=? n) && (n <=? 222) && negb (n =? 215))%N
  then ascii_of_N (n + 32)
  else c.

Fixpoint lower (s : string) : string :=
  match s with
  | EmptyString => EmptyString
  | String c s' => String (lower_char c) (lower s')
  end.

(** [s.lstrip()]: drop the leading whitespace. *)
Fixpoint lstrip (s : string) : string :=
  match s with
  | EmptyString => EmptyString
  | String c s' => if isspace c then lstrip s' else s
  end.

(** [s.rstrip()]: drop the trailing whitespace. *)
Fixpoint rstrip (s : string) : string :=
  match s with
  | EmptyString => EmptyString
  | String c s' =>
      match rstrip s' with
      | EmptyString => if isspace c then EmptyString else String c EmptyString
      | r => String c r
      end
  end.

(** [s.strip()] *)
Definition strip (s : string) : string := rstrip (lstrip s).

(** [s.split(sep)] for a separator of one character: one more part than
    there are separators, empty parts kept. *)
Fixpoint split (sep : ascii) (s : string) : list string :=
  match s with
  | EmptyString => [EmptyString]
  | String c s' =>
      if Ascii.eqb c sep then EmptyString :: split sep s'
      else match split sep s' with
           | p :: ps => String c p :: ps
           | [] => [String c EmptyString]
           end
  end.

(** [sep.join(parts)] *)
Fixpoint join (sep : string) (parts : list string) : string :=
  match parts with
  | [] => EmptyString
  | [p] => p
  | p :: ps => p +:+ sep +:+ join sep ps
  end.

(** [c in s] for a character [c]. *)
Fixpoint has_char (c : ascii) (s : string) : bool :=
  match s with
  | EmptyString => false
  | String a s' => Ascii.eqb a c || has_char c s'
  end.

(** Truth value of a string: [not s] holds of the empty string only. *)
Definition is_empty (s : string) : bool :=
  match s with EmptyString => true | _ => false end.

(** Number of occurrences of [c] in [s]: [s.count(c)]. *)
Fixpoint count_char (c : ascii) (s : string) : nat :=
  match s with
  | EmptyString => 0%nat
  | String a s' => ((if Ascii.eqb a c then 1 else 0) + count_char c s')%nat
  end.

(** Strings made of whitespace only (the empty one included). *)
Fixpoint all_space (s : string) : bool :=
  match s with
  | EmptyString => true
  | String c s' => isspace c && all_space s'
  end.

(** Whether the first character is whitespace. *)
Definition head_space (s : string) : bool :=
  match s with String c _ => isspace c | EmptyString => false end.

End PyStr.

(** ** Hash formatter and field parser *)

(** The two output dialects, as [argparse] admits them. *)
Inductive HashMode := Hashcat | John.

Definition mode_name (m : HashMode) : string :=
  match m with Hashcat => "hashcat" | John => "john" end.

(** A capture record: [(username, domain, cipher)]. *)
Record CaptureRecord := mkRecord {
  principal_name : string;
  realm : string;
  cipher_hex : string
}.

(** The two templates of the formatter. *)
Definition hashcat_text (username domain cipher : string) : string :=
  "$krb5pa$18$" +:+ username +:+ "$" +:+ domain +:+ "$" +:+ cipher.
Definition john_text (username domain cipher : string) : string :=
  "$krb5pa$18$" +:+ username +:+ "$" +:+ domain +:+ "$$" +:+ cipher.

(** The sixteen spellings of [john] in upper and lower case. *)
Definition john_variant (fmt : string) : bool :=
  match fmt with
  | String a (String b (String c (String d EmptyString))) =>
      (Ascii.eqb a "j" || Ascii.eqb a "J")
      && (Ascii.eqb b "o" || Ascii.eqb b "O")
      && (Ascii.eqb c "h" || Ascii.eqb c "H")
      && (Ascii.eqb d "n" || Ascii.eqb d "N")
  | _ => false
  end.

Definition format_asreq_hash (username domain cipher fmt : string) : string :=
  if decide (PyStr.lower fmt = "john") then
    "$krb5pa$18$" +:+ username +:+ "$" +:+ domain +:+ "$$" +:+ cipher
  else
    "$krb5pa$18$" +:+ username +:+ "$" +:+ domain +:+ "$" +:+ cipher.

Definition parse_asreq_line (line : string) : option CaptureRecord :=
  match PyStr.split "$" (PyStr.strip line) with
  | [username; domain; cipher] =>
      if PyStr.is_empty username || PyStr.is_empty domain
         || PyStr.is_empty cipher
      then None
      else Some (mkRecord username domain cipher)
  | _ => None
  end.

(** ** Paths ([pathlib.PurePosixPath])

    A path is its root ([""], ["/"] or ["//"]) and its components; parsing
    drops empty and ["."] components, and joining an absolute path replaces
    the left operand. *)

Record Path := mkPath { root : string; parts : list string }.

Global Instance Path_eq_dec : EqDecision Path.
Proof. solve_decision. Defined.

Global Instance Path_countable : Countable Path :=
  inj_countable' (fun p => (root p, parts p)) (fun t => mkPath t.1 t.2)
                 (fun p => match p with mkPath _ _ => eq_refl end).

Module PyPath.

Definition root_of (s : string) : string :=
  match s with
  | String "/" (String "/" (String "/" _)) => "/"
  | String "/" (String "/" _) => "//"
  | String "/" _ => "/"
  | _ => ""
  end.

Definition keep_part (c : string) : bool :=
  negb (PyStr.is_empty c) && negb (bool_decide (c = ".")).

(** [Path(s)] *)
Definition of_string (s : string) : Path :=
  mkPath (root_of s) (List.filter keep_part (PyStr.split "/" s)).

Definition joinpath (p q : Path) : Path :=
  if PyStr.is_empty (root q) then mkPath (root p) (parts p ++ parts q)
  else q.

(** [p / s] *)
Definition truediv (p : Path) (s : string) : Path := joinpath p (of_string s).

(** [str(p)] *)
Definition to_string (p : Path) : string :=
  match root p, parts p with
  | EmptyString, [] => "."
  | r, ps => r +:+ PyStr.join "/" ps
  end.

Fixpoint prefixes {A} (l : list A) : list (list A) :=
  match l with
  | [] => []
  | x :: l' => [x] :: List.map (cons x) (prefixes l')
  end.

(** The path itself and its ancestors below the root: what
    [mkdir(parents=True)] makes sure exists. *)
Definition self_and_parents (p : Path) : list Path :=
  List.map (mkPath (root p)) (prefixes (parts p)).

End PyPath.

Infix "//" := PyPath.truediv (at level 40, left associativity).

(** ** The world the program acts on *)

(** A process of the table runs with no SIGTERM sent to it, has been sent
    a SIGTERM (it runs on until it acts on it), or has exited and awaits
    its parent's [waitpid]. *)
Inductive pstatus := Running | Signalled | Exited (code : Z).

Record process := mkProcess { pgid : Z; status : pstatus }.

Record World := mkWorld {
  files : gmap Path string;     (* regular files and their text *)
  dirs : gset Path;             (* directories *)
  console : list string;        (* what [print] has written, a call each *)
  ticks : nat;                  (* readings of the clock so far *)
  procs : gmap Z process        (* process table, by pid *)
}.

Definition set_files (w : World) (f : gmap Path string) : World :=
  mkWorld f (dirs w) (console w) (ticks w) (procs w).
Definition set_dirs (w : World) (d : gset Path) : World :=
  mkWorld (files w) d (console w) (ticks w) (procs w).
Definition set_console (w : World) (c : list string) : World :=
  mkWorld (files w) (dirs w) c (ticks w) (procs w).
Definition set_ticks (w : World) (t : nat) : World :=
  mkWorld (files w) (dirs w) (console w) t (procs w).
Definition set_procs (w : World) (p : gmap Z process) : World :=
  mkWorld (files w) (dirs w) (console w) (ticks w) p.

(** The exceptions of the modelled steps: a refusal of the file system, a
    process that is not there, a failed [assert]. *)
Inductive exn := OSError | ProcessLookupError | AssertionError.

Inductive outcome (A : Type) := Ok (a : A) | Raise (e : exn).
Arguments Ok {A} a.
Arguments Raise {A} e.

(** State and exception monad: effects made before an exception stay. *)
Definition M (A : Type) : Type := World -> outcome A * World.

Global Instance M_ret : MRet M := fun A a w => (Ok a, w).
Global Instance M_bind : MBind M := fun A B f m w =>
  match m w with
  | (Ok a, w') => f a w'
  | (Raise e, w') => (Raise e, w')
  end.

(** [try: m  except Exception: h] *)
Definition try_except {A} (m h : M A) : M A := fun w =>
  match m w with
  | (Raise _, w') => h w'
  | r => r
  end.

(** [try: m  except Exception: pass] *)
Definition try_pass (m : M unit) : M unit := try_except m (mret tt).

Definition raise {A} (e : exn) : M A := fun w => (Raise e, w).

(** [print(s)] *)
Definition print (s : string) : M unit := fun w =>
  (Ok tt, set_console w (console w ++ [s])).

(** A SIGTERM sent to a process: a running process becomes a signalled
    one; nothing says when it ends.  A process that has exited ignores
    it. *)
Definition deliver_sigterm (pr : process) : process :=
  match status pr with
  | Running => mkProcess (pgid pr) Signalled
  | Signalled | Exited _ => pr
  end.

(** [os.getpgid(pid)] *)
Definition getpgid (pid : Z) : M Z := fun w =>
  match procs w !! pid with
  | Some pr => (Ok (pgid pr), w)
  | None => (Raise ProcessLookupError, w)
  end.

Definition in_group (g : Z) (pr : process) : bool := bool_decide (pgid pr = g).

Definition group_exists (g : Z) (ps : gmap Z process) : bool :=
  existsb (fun kv => in_group g kv.2) (map_to_list ps).

(** SIGTERM sent to the group [g], seen from one process of the table. *)
Definition signal_group (g : Z) (pr : process) : process :=
  if in_group g pr then deliver_sigterm pr else pr.

(** [os.killpg(g, signal.SIGTERM)] *)
Definition killpg (g : Z) : M unit := fun w =>
  if group_exists g (procs w) then
    (Ok tt, set_procs w (signal_group g <$> procs w))
  else (Raise ProcessLookupError, w).

(** [os.kill(pid, signal.SIGTERM)] *)
Definition kill (pid : Z) : M unit := fun w =>
  match procs w !! pid with
  | Some pr => (Ok tt, set_procs w (<[pid := deliver_sigterm pr]> (procs w)))
  | None => (Raise ProcessLookupError, w)
  end.

(** The [subprocess.Popen] handle. *)
Record Popen := mkPopen { pid : Z; returncode : option Z }.

(** [Popen.poll()]: reaps the child when it has exited and records its
    status; a child that runs, signalled or not, leaves the handle as it
    is.  The handle comes back with [returncode] as [poll] leaves it.  A
    child that is gone from the table (ECHILD) counts as status 0. *)
Definition poll (p : Popen) : M Popen := fun w =>
  match returncode p with
  | Some _ => (Ok p, w)
  | None =>
      match procs w !! pid p with
      | Some pr =>
          match status pr with
          | Running | Signalled => (Ok p, w)
          | Exited c =>
              (Ok (mkPopen (pid p) (Some c)),
               set_procs w (delete (pid p) (procs w)))
          end
      | None => (Ok (mkPopen (pid p) (Some 0)), w)
      end
  end.

(** [Popen.terminate()]: polls, and signals only a child not known dead. *)
Definition terminate (p : Popen) : M Popen :=
  p' ← poll p;
  match returncode p' with
  | Some _ => mret p'
  | None => try_pass (kill (pid p'));; mret p'
  end.

(** ** The listener *)

Definition LF : string := String "010" EmptyString.

Record TsharkListener := mkListener {
  interface : string;
  out_dir : Path;
  no_files : bool;
  format : string;
  proc : option Popen;
  stop : bool;
  all_hashes_file : Path
}.

(** [TsharkListener.__init__] *)
Definition init (interface : string) (out_dir : Path) (fmt : string)
    (no_files : bool) : TsharkListener :=
  let format := PyStr.lower fmt in
  mkListener interface out_dir no_files format None false
             (out_dir // ("all_hashes_" +:+ format +:+ ".txt")).

Definition set_stop (l : TsharkListener) (b : bool) : TsharkListener :=
  mkListener (interface l) (out_dir l) (no_files l) (format l) (proc l) b
             (all_hashes_file l).
Definition set_proc (l : TsharkListener) (p : option Popen) : TsharkListener :=
  mkListener (interface l) (out_dir l) (no_files l) (format l) p (stop l)
             (all_hashes_file l).

(** What arrives while the loop waits for the decoder: a line of its
    output, or a signal (SIGINT or SIGTERM) that runs the handler [main]
    installs. *)
Inductive event := Line (s : string) | Interrupt.

(** The file system after [text] is written at the end of [p] (the file
    is created when it is not there). *)
Definition appended (w : World) (p : Path) (text : string) : World :=
  set_files w (<[p := default EmptyString (files w !! p) +:+ text]> (files w)).

Section Capture.

(** The text [strftime] gives at the n-th reading of the clock. *)
Variable clock : nat -> string.

(** Whether the file system refuses to open or create a path in a world
    (permissions, a missing parent, a full disk, ...). *)
Variable io_error : World -> Path -> bool.

(** [dt.datetime.now().strftime("%Y-%m-%d %H:%M:%S")] *)
Definition now : M string := fun w =>
  (Ok (clock (ticks w)), set_ticks w (S (ticks w))).

(** [with p.open("a", encoding="utf-8") as f: f.write(text)].  A file is
    known by its path: this is the file the system opens as long as the
    paths in play are entries of one directory under plain names (no [..],
    no links).  The oracle is the refusal of the file system. *)
Definition append_text (p : Path) (text : string) : M unit := fun w =>
  if io_error w p then (Raise OSError, w)
  else (Ok tt, appended w p text).

(** [os.mkdir] on each of a list of directories, the ones that are there
    left alone; the first refusal ends it, with what was made before. *)
Fixpoint mkdir_each (ps : list Path) : M unit :=
  match ps with
  | [] => mret tt
  | p :: ps' => fun w =>
      if bool_decide (p ∈ dirs w) then mkdir_each ps' w
      else if io_error w p then (Raise OSError, w)
      else mkdir_each ps' (set_dirs w (dirs w ∪ {[p]}))
  end.

(** [path.mkdir(parents=True, exist_ok=True)]: the missing ancestors are
    made from the top down, then the directory itself. *)
Definition mkdir_parents (p : Path) : M unit :=
  mkdir_each (PyPath.self_and_parents p).

Definition ensure_output_dir (path : Path) (no_files : bool) : M unit :=
  if negb no_files then
    mkdir_parents path;;
    print ("[+] Using output directory: " +:+ PyPath.to_string path)
  else
    print "[*] No output files will be created".

Definition user_file (out_dir : Path) (username domain : string) : Path :=
  out_dir // (username +:+ "_" +:+ domain +:+ ".txt").

Definition write_output (out_dir : Path) (username domain hash_str : string)
    : M unit :=
  append_text (user_file out_dir username domain) (hash_str +:+ LF).

(** [TsharkListener.shutdown] *)
Definition shutdown (l : TsharkListener) : M TsharkListener :=
  let l := set_stop l true in
  match proc l with
  | Some p =>
      try_pass (g ← getpgid (pid p); killpg g);;
      mret l
  | None => mret l
  end.

(** [handle_sigint], the handler [main] installs for SIGINT and SIGTERM. *)
Definition handle_sigint (l : TsharkListener) : M TsharkListener :=
  print (LF +:+ "[!] Stopping listener...");;
  shutdown l.

Definition console_header (ts username domain : string) : string :=
  "[+] " +:+ ts +:+ " - Captured AS-REQ for " +:+ username +:+ "@" +:+ domain.

(** The body of the loop of [TsharkListener.run], below the [stop] test. *)
Definition process_line (l : TsharkListener) (line : string) : M unit :=
  let line := PyStr.strip line in
  if PyStr.is_empty line then mret tt
  else
    match parse_asreq_line line with
    | None => mret tt
    | Some (mkRecord username domain cipher) =>
        let hash_str := format_asreq_hash username domain cipher (format l) in
        ts ← now;
        print (console_header ts username domain);;
        print hash_str;;
        if negb (no_files l) then
          write_output (out_dir l) username domain hash_str;;
          append_text (all_hashes_file l) (hash_str +:+ LF)
        else mret tt
    end.

(** The loop [for line in self.proc.stdout], over what arrives. *)
Fixpoint run_loop (evs : list event) (l : TsharkListener)
    : M TsharkListener :=
  match evs with
  | [] => mret l
  | Interrupt :: evs' =>
      l' ← handle_sigint l;
      run_loop evs' l'
  | Line s :: evs' =>
      if stop l then mret l
      else process_line l s;; run_loop evs' l
  end.

(** [TsharkListener.run] *)
Definition run (evs : list event) (l : TsharkListener) : M TsharkListener :=
  match proc l with
  | None => raise AssertionError
  | Some _ =>
      l ← run_loop evs l;
      match proc l with
      | Some p =>
          p ← poll p;
          match returncode p with
          | None =>
              p' ← try_except (terminate p) (mret p);
              mret (set_proc l (Some p'))
          | Some _ => mret (set_proc l (Some p))
          end
      | None => mret l
      end
  end.

(** *** What the loop is expected to leave behind *)

(** The formatted hash of a record. *)
Definition hash_of (fmt : string) (r : CaptureRecord) : string :=
  format_asreq_hash (principal_name r) (realm r) (cipher_hex r) fmt.

(** The console lines of a sequence of records, the first one reported at
    the [t]-th reading of the clock: a header and the hash for each. *)
Fixpoint report (fmt : string) (t : nat) (rs : list CaptureRecord)
    : list string :=
  match rs with
  | [] => []
  | r :: rs' =>
      console_header (clock t) (principal_name r) (realm r)
        :: hash_of fmt r :: report fmt (S t) rs'
  end.


(** The world once a record is on the console. *)
Definition reported (l : TsharkListener) (w : World) (r : CaptureRecord)
    : World :=
  set_console (set_ticks w (S (ticks w)))
    (console w ++ [console_header (clock (ticks w)) (principal_name r) (realm r);
                   hash_of (format l) r]).

(** The world once a record is on the console and in both files. *)
Definition persisted (l : TsharkListener) (w : World) (r : CaptureRecord)
    : World :=
  appended
    (appended (reported l w r)
              (user_file (out_dir l) (principal_name r) (realm r))
              (hash_of (format l) r +:+ LF))
    (all_hashes_file l) (hash_of (format l) r +:+ LF).

(** The world after a sequence of records, each handled in full. *)
Fixpoint after_records (l : TsharkListener) (w : World)
    (rs : list CaptureRecord) : World :=
  match rs with
  | [] => w
  | r :: rs' =>
      after_records l
        (if no_files l then reported l w r else persisted l w r) rs'
  end.

End Capture.

(** ** A small scenario, for the examples below *)

Module Demo.

(** A clock that counts seconds. *)
Definition clock (n : nat) : string :=
  match n with
  | O => "2024-05-01 10:00:00"
  | S O => "2024-05-01 10:00:01"
  | _ => "2024-05-01 10:00:02"
  end.

(** A file system that refuses nothing, and one that refuses one path. *)
Definition no_error : World -> Path -> bool := fun _ _ => false.
Definition refuse (p : Path) : World -> Path -> bool :=
  fun _ q => bool_decide (q = p).

(** The decoder runs as process 4242, leader of its own group; there are
    no files yet. *)
Definition world0 : World :=
  mkWorld ∅ ∅ [] 0 {[ 4242 := mkProcess 4242 Running ]}.

(** A started listener writing below [./kerberos_captures]. *)
Definition listener (fmt : string) (no_files : bool) : TsharkListener :=
  set_proc (init "eth0" (PyPath.of_string "./kerberos_captures") fmt no_files)
           (Some (mkPopen 4242 None)).

Definition alice : string := "alice$EXAMPLE.COM$deadbeef".
Definition bob : string := "bob$EXAMPLE.COM$cafe".

End Demo.

(** ** Starting the decoder, and the capture part of [main] *)

Definition TSHARK_PATH : string := "/usr/bin/tshark".

(** [str(n)] for an integer. *)
Definition str_of_int (n : Z) : string :=
  DecimalString.NilZero.string_of_int (Z.to_int n).

(** The display filter of [TsharkListener.start]. *)
Definition display_filter : string :=
  "kerberos.msg_type == 10 && kerberos.CNameString && "
  +:+ "kerberos.realm && kerberos.cipher".

(** The command line of [TsharkListener.start]. *)
Definition tshark_args (interface : string) : list string :=
  [TSHARK_PATH; "-Q"; "-n"; "-i"; interface; "-Y"; display_filter;
   "-T"; "fields";
   "-e"; "kerberos.CNameString"; "-e"; "kerberos.realm";
   "-e"; "kerberos.cipher";
   "-E"; "separator=$"; "-l"].

(** The process with this pid has been sent a SIGTERM, or has exited, or
    is gone from the process table. *)
Definition signalled_or_gone (k : Z) (w : World) : Prop :=
  forall q, procs w !! k = Some q -> status q <> Running.

(** Every file keeps its text as the beginning of its new text. *)
Definition append_only (w w' : World) : Prop :=
  forall q text, files w !! q = Some text ->
    exists more, files w' !! q = Some (text +:+ more).

(** The process [k], when it is there, leads its own group. *)
Definition child_leads (k : Z) (w : World) : Prop :=
  forall q, procs w !! k = Some q -> pgid q = k.

(** The processes outside the group [k] are as they were. *)
Definition others_untouched (k : Z) (w w' : World) : Prop :=
  forall j q, j <> k -> pgid q <> k ->
    procs w !! j = Some q -> procs w' !! j = Some q.

(** While the process [k] leads its group, a step keeps it so and leaves
    the processes of other groups alone. *)
Definition group_step (k : Z) (w w' : World) : Prop :=
  child_leads k w -> child_leads k w' /\ others_untouched k w w'.

(** The notice of the signal handler. *)
Definition stop_notice : string := LF +:+ "[!] Stopping listener...".

Section Session.

Variable clock : nat -> string.
Variable io_error : World -> Path -> bool.

(** The pid the system gives to a child launched with a command line, or
    nothing when the program cannot be launched. *)
Variable spawn : World -> list string -> option Z.

(** [subprocess.Popen(args, ..., preexec_fn=os.setsid)]: the child leads a
    process group of its own. *)
Definition popen (args : list string) : M Popen := fun w =>
  match spawn w args with
  | Some k =>
      (Ok (mkPopen k None),
       set_procs w (<[k := mkProcess k Running]> (procs w)))
  | None => (Raise OSError, w)
  end.

(** [TsharkListener.start] *)
Definition start (l : TsharkListener) : M TsharkListener :=
  p ← popen (tshark_args (interface l));
  print ("[+] Tshark started (PID: " +:+ str_of_int (pid p) +:+ ")");;
  mret (set_proc l (Some p)).

(** [try: listener.start(); listener.run()  finally: listener.shutdown(); print(...)]
    of [main].  The listener is one object: [shutdown] finds it as [start]
    and [run] left it.  When [run] raises, that is the listener [start] gave:
    only the signal handler changes it during the loop, and the loop body
    does not run once it has. *)
Definition capture_session (evs : list event) (out_dir : Path)
    (l : TsharkListener) : M TsharkListener := fun w =>
  let closing l' :=
    l'' ← shutdown l';
    print ("[+] Listener stopped. Check output files in: "
           +:+ PyPath.to_string out_dir);;
    mret l'' in
  match start l w with
  | (Raise e, w1) =>
      match closing l w1 with
      | (Ok _, w2) => (Raise e, w2)
      | (Raise e', w2) => (Raise e', w2)
      end
  | (Ok l1, w1) =>
      match run clock io_error evs l1 w1 with
      | (Raise e, w2) =>
          match closing l1 w2 with
          | (Ok _, w3) => (Raise e, w3)
          | (Raise e', w3) => (Raise e', w3)
          end
      | (Ok l2, w2) => closing l2 w2
      end
  end.

(** [main], from [ensure_output_dir] on: the interface, the output
    directory, the format and the flag are what the argument parsing, the
    prompt and [expanduser] gave. *)
Definition main_capture (interface : string) (out_dir : Path) (fmt : string)
    (no_files : bool) (evs : list event) : M TsharkListener :=
  ensure_output_dir io_error out_dir no_files;;
  let listener := init interface out_dir fmt no_files in
  print (LF +:+ "Press Ctrl+C to stop the listener at any time" +:+ LF);;
  print "=== Kerberos AS-REQ Live Listener ===";;
  (if no_files then print "[*] No output files will be created"
   else print ("[*] Output directory: " +:+ PyPath.to_string out_dir));;
  print ("[*] Hash format: " +:+ fmt);;
  print ("[*] Starting capture on interface: " +:+ interface);;
  print ("[*] Listening for Kerberos AS-REQ packets..." +:+ LF);;
  capture_session evs out_dir listener.

End Session.

Module DemoSession.

(** The system gives pid 4242 to the decoder. *)
Definition spawn : World -> list string -> option Z := fun _ _ => Some 4242.

(** A system on which the decoder cannot be launched. *)
Definition no_spawn : World -> list string -> option Z := fun _ _ => None.

(** Nothing runs and there are no files. *)
Definition empty_world : World := mkWorld ∅ ∅ [] 0 ∅.

(** Another process, in a group of its own. *)
Definition busy_world : World :=
  mkWorld ∅ ∅ [] 0 {[ 7 := mkProcess 7 Running ]}.

End DemoSession.

(** ** Facts about the string helpers *)

Section StrFacts.
Import PyStr.

Lemma str_app_cons (a : ascii) (s t : string) :
  String a s +:+ t = String a (s +:+ t).
Proof. reflexivity. Qed.

Lemma str_app_nil_l (t : string) : "" +:+ t = t.
Proof. reflexivity. Qed.

Lemma str_app_nil_r (s : string) : s +:+ "" = s.
Proof. induction s as [|a s IH]; [done|]. by rewrite str_app_cons, IH. Qed.

Lemma is_empty_true (s : string) : is_empty s = true <-> s = "".
Proof. destruct s; simpl; split; congruence. Qed.

Lemma split_not_nil sep s : split sep s <> [].
Proof.
  destruct s as [|c s]; simpl; [done|].
  destruct (Ascii.eqb c sep); [done|]. by destruct (split sep s).
Qed.

Lemma split_cons_other sep c s :
  Ascii.eqb c sep = false ->
  exists p ps, split sep s = p :: ps /\ split sep (String c s) = String c p :: ps.
Proof.
  intros Hc. simpl. rewrite Hc.
  destruct (split sep s) as [|p ps] eqn:E; [by apply split_not_nil in E|].
  eauto.
Qed.

(** Joining the parts with the separator gives the string back. *)
Lemma join_split sep s : join (String sep "") (split sep s) = s.
Proof.
  induction s as [|c s IH]; [done|].
  destruct (Ascii.eqb c sep) eqn:Hc.
  - simpl. rewrite Hc. apply Ascii.eqb_eq in Hc as ->.
    destruct (split sep s) as [|p ps] eqn:E; [by apply split_not_nil in E|].
    change (join (String sep "") ("" :: p :: ps))
      with ("" +:+ String sep "" +:+ join (String sep "") (p :: ps)).
    by rewrite IH.
  - destruct (split_cons_other sep c s Hc) as (p & ps & E1 & E2).
    rewrite E2. rewrite E1 in IH. destruct ps as [|q ps].
    + simpl in *. by subst.
    + change (join (String sep "") (String c p :: q :: ps))
        with (String c p +:+ String sep "" +:+ join (String sep "") (q :: ps)).
      rewrite str_app_cons. f_equal. exact IH.
Qed.

(** No part holds the separator. *)
Lemma split_no_sep sep s p : p ∈ split sep s -> has_char sep p = false.
Proof.
  revert p. induction s as [|c s IH]; intros p.
  - simpl. intros ->%list_elem_of_singleton. done.
  - destruct (Ascii.eqb c sep) eqn:Hc.
    + simpl. rewrite Hc. intros [->|Hin]%elem_of_cons; [done|]. by apply IH.
    + destruct (split_cons_other sep c s Hc) as (q & qs & E1 & E2).
      rewrite E2. rewrite E1 in IH.
      intros [->|Hin]%elem_of_cons.
      * simpl. rewrite Hc. apply IH. by left.
      * apply IH. by right.
Qed.

Lemma split_single sep s : has_char sep s = false -> split sep s = [s].
Proof.
  induction s as [|c s IH]; [done|]. simpl.
  intros [Hc Hs]%orb_false_iff. rewrite Hc, (IH Hs). done.
Qed.

Lemma split_app sep u rest :
  has_char sep u = false ->
  split sep (u +:+ String sep rest) = u :: split sep rest.
Proof.
  induction u as [|c u IH].
  - intros _. rewrite str_app_nil_l. simpl. by rewrite Ascii.eqb_refl.
  - rewrite str_app_cons. simpl. intros [Hc Hu]%orb_false_iff.
    rewrite Hc, (IH Hu). done.
Qed.

Lemma length_split sep s : length (split sep s) = S (count_char sep s).
Proof.
  induction s as [|c s IH]; [done|].
  destruct (Ascii.eqb c sep) eqn:Hc.
  - simpl. rewrite Hc. simpl. by rewrite IH.
  - destruct (split_cons_other sep c s Hc) as (q & qs & E1 & E2).
    rewrite E2. simpl. rewrite Hc. simpl. rewrite <- IH, E1. done.
Qed.

Lemma isspace_neq sep c : isspace sep = false -> isspace c = true -> Ascii.eqb c sep = false.
Proof.
  intros H1 H2. apply Ascii.eqb_neq. intros ->. congruence.
Qed.

Lemma count_lstrip sep s :
  isspace sep = false -> count_char sep (lstrip s) = count_char sep s.
Proof.
  intros Hsep. induction s as [|c s IH]; [done|]. simpl.
  destruct (isspace c) eqn:Hc; [|done].
  by rewrite (isspace_neq _ _ Hsep Hc).
Qed.

Lemma count_rstrip sep s :
  isspace sep = false -> count_char sep (rstrip s) = count_char sep s.
Proof.
  intros Hsep. induction s as [|c s IH]; [done|]. simpl.
  destruct (rstrip s) as [|a r] eqn:E.
  - simpl in IH. rewrite <- IH. destruct (isspace c) eqn:Hc.
    + by rewrite (isspace_neq _ _ Hsep Hc).
    + simpl. lia.
  - simpl in *. by rewrite IH.
Qed.

Lemma length_split_strip sep s :
  isspace sep = false ->
  length (split sep (strip s)) = length (split sep s).
Proof.
  intros Hsep. rewrite !length_split. unfold strip.
  by rewrite count_rstrip, count_lstrip.
Qed.

Lemma lstrip_all_space s : all_space s = true -> lstrip s = "".
Proof.
  induction s as [|c s IH]; [done|]. simpl.
  intros [-> Hs]%andb_true_iff. auto.
Qed.

Lemma strip_all_space s : all_space s = true -> strip s = "".
Proof. intros H. unfold strip. by rewrite lstrip_all_space. Qed.

Lemma strip_empty_all_space s : strip s = "" -> all_space s = true.
Proof.
  unfold strip. induction s as [|c s IH]; [done|]. simpl.
  destruct (isspace c) eqn:Hc; [exact IH|]. simpl.
  destruct (rstrip s); [by rewrite Hc|done].
Qed.

Lemma lstrip_head s : head_space (lstrip s) = false.
Proof.
  induction s as [|c s IH]; [done|]. simpl.
  destruct (isspace c) eqn:Hc; [done|]. simpl. done.
Qed.

Lemma lstrip_fix s : head_space s = false -> lstrip s = s.
Proof. destruct s as [|c s]; [done|]. simpl. by intros ->. Qed.

Lemma rstrip_head s : head_space s = false -> head_space (rstrip s) = false.
Proof.
  destruct s as [|c s]; [done|]. simpl. intros Hc.
  destruct (rstrip s); [by rewrite Hc|done].
Qed.

Lemma rstrip_idem s : rstrip (rstrip s) = rstrip s.
Proof.
  induction s as [|c s IH]; [done|]. simpl.
  destruct (rstrip s) as [|a r] eqn:E.
  - destruct (isspace c) eqn:Hc; [done|]. simpl. by rewrite Hc.
  - simpl in *. destruct (rstrip r) eqn:Er.
    + destruct (isspace a); [done|]. by rewrite IH.
    + by rewrite IH.
Qed.

Lemma strip_idem s : strip (strip s) = strip s.
Proof.
  unfold strip. rewrite (lstrip_fix (rstrip (lstrip s))).
  - apply rstrip_idem.
  - apply rstrip_head, lstrip_head.
Qed.

End StrFacts.

(** ** Facts about paths *)

Lemma has_char_app c s t :
  PyStr.has_char c (s +:+ t) = PyStr.has_char c s || PyStr.has_char c t.
Proof.
  induction s as [|a s IH]; [done|].
  rewrite str_app_cons. simpl. by rewrite IH, orb_assoc.
Qed.

Lemma root_of_plain s : PyStr.has_char "/" s = false -> PyPath.root_of s = "".
Proof.
  destruct s as [|a s]; [done|]. simpl.
  destruct (Ascii.eqb a "/") eqn:E; [done|]. intros _.
  apply Ascii.eqb_neq in E.
  unfold PyPath.root_of.
  destruct a as [[] [] [] [] [] [] [] []]; done.
Qed.

(** Joining a plain file name adds one component. *)
Lemma truediv_plain dir name :
  PyStr.has_char "/" name = false -> name <> "" -> name <> "." ->
  dir // name = mkPath (root dir) (parts dir ++ [name]).
Proof.
  intros Hs He Hd. unfold PyPath.truediv, PyPath.of_string, PyPath.joinpath.
  rewrite root_of_plain, split_single by done. simpl.
  unfold PyPath.keep_part.
  rewrite bool_decide_eq_false_2 by done.
  destruct name; done.
Qed.

(** The per-identity file of a principal and a realm without [/] is the
    file [<principal>_<realm>.txt] of the output directory. *)
Lemma user_file_plain dir u d :
  PyStr.has_char "/" u = false -> PyStr.has_char "/" d = false ->
  user_file dir u d
    = mkPath (root dir) (parts dir ++ [u +:+ "_" +:+ d +:+ ".txt"]).
Proof.
  intros Hu Hd. unfold user_file. apply truediv_plain.
  - rewrite !has_char_app, Hu, Hd. done.
  - destruct u; done.
  - destruct u as [|a [|b u]]; done.
Qed.

(** Two plain names are two entries of a directory. *)
Lemma truediv_plain_ne dir a b :
  PyStr.has_char "/" a = false -> PyStr.has_char "/" b = false ->
  b <> "" -> b <> "." -> a <> b ->
  dir // a <> dir // b.
Proof.
  intros Ha Hb Hb1 Hb2 Hab.
  rewrite (truediv_plain dir b) by done.
  destruct (decide (a = "")) as [->|Ha1];
    [intros [= H%(f_equal length)]; rewrite !length_app in H; simpl in H; lia|].
  destruct (decide (a = ".")) as [->|Ha2];
    [intros [= H%(f_equal length)]; rewrite !length_app in H; simpl in H; lia|].
  rewrite (truediv_plain dir a) by done.
  intros [= H%app_inv_head]. congruence.
Qed.

Lemma aggregate_name_plain fmt :
  PyStr.has_char "/" fmt = false ->
  PyStr.has_char "/" ("all_hashes_" +:+ fmt +:+ ".txt") = false
  /\ "all_hashes_" +:+ fmt +:+ ".txt" <> ""
  /\ "all_hashes_" +:+ fmt +:+ ".txt" <> ".".
Proof. intros H. rewrite !has_char_app, H. done. Qed.

Lemma user_name_plain u d :
  PyStr.has_char "/" u = false -> PyStr.has_char "/" d = false ->
  PyStr.has_char "/" (u +:+ "_" +:+ d +:+ ".txt") = false
  /\ u +:+ "_" +:+ d +:+ ".txt" <> ""
  /\ u +:+ "_" +:+ d +:+ ".txt" <> ".".
Proof.
  intros Hu Hd. rewrite !has_char_app, Hu, Hd.
  split; [done|]. split; [by destruct u|]. by destruct u as [|a [|b u]].
Qed.

Section ParseFacts.
Import PyStr.

Lemma str_app_assoc (s t u : string) : (s +:+ t) +:+ u = s +:+ t +:+ u.
Proof. induction s as [|a s IH]; [done|]. by rewrite !str_app_cons, IH. Qed.

Lemma has_char_lstrip c s : has_char c s = false -> has_char c (lstrip s) = false.
Proof.
  induction s as [|a s IH]; [done|]. simpl.
  intros [Ha Hs]%orb_false_iff. destruct (isspace a); [auto|].
  simpl. by rewrite Ha, Hs.
Qed.

Lemma has_char_rstrip c s : has_char c s = false -> has_char c (rstrip s) = false.
Proof.
  induction s as [|a s IH]; [done|]. simpl.
  intros [Ha Hs]%orb_false_iff. specialize (IH Hs).
  destruct (rstrip s) as [|b r].
  - destruct (isspace a); [done|]. simpl. by rewrite Ha.
  - simpl in *. by rewrite Ha, IH.
Qed.

Lemma lstrip_app sep u rest :
  isspace sep = false ->
  lstrip (u +:+ String sep rest) = lstrip u +:+ String sep rest.
Proof.
  intros Hsep. induction u as [|a u IH].
  - rewrite !str_app_nil_l. simpl. by rewrite Hsep.
  - rewrite str_app_cons. simpl. destruct (isspace a); [exact IH|].
    by rewrite str_app_cons.
Qed.

Lemma rstrip_app sep pre c :
  isspace sep = false ->
  rstrip (pre +:+ String sep c) = pre +:+ String sep (rstrip c).
Proof.
  intros Hsep. induction pre as [|a pre IH].
  - rewrite !str_app_nil_l. simpl. destruct (rstrip c); [by rewrite Hsep|done].
  - rewrite !str_app_cons. simpl. rewrite IH.
    destruct pre; [rewrite str_app_nil_l|rewrite str_app_cons]; done.
Qed.

(** The parser on a line of three delimiter-free fields: the whitespace
    around the line goes, the fields stay as they are. *)
Lemma parse_three_fields U D C :
  has_char "$" U = false -> has_char "$" D = false -> has_char "$" C = false ->
  parse_asreq_line (U +:+ "$" +:+ D +:+ "$" +:+ C) =
    if is_empty (lstrip U) || is_empty D || is_empty (rstrip C) then None
    else Some (mkRecord (lstrip U) D (rstrip C)).
Proof.
  intros HU HD HC. unfold parse_asreq_line, strip.
  change ("$" +:+ D +:+ "$" +:+ C) with (String "$" (D +:+ String "$" C)).
  rewrite lstrip_app by done.
  change (lstrip U +:+ String "$" (D +:+ String "$" C))
    with (lstrip U +:+ "$" +:+ D +:+ String "$" C).
  rewrite <- (str_app_assoc (lstrip U) "$" (D +:+ String "$" C)).
  rewrite <- (str_app_assoc (lstrip U +:+ "$") D (String "$" C)).
  rewrite rstrip_app by done.
  rewrite (str_app_assoc (lstrip U +:+ "$") D), (str_app_assoc (lstrip U) "$").
  change ("$" +:+ D +:+ String "$" (rstrip C))
    with (String "$" (D +:+ String "$" (rstrip C))).
  rewrite split_app by by apply has_char_lstrip.
  rewrite split_app by done.
  rewrite split_single by by apply has_char_rstrip.
  done.
Qed.

End ParseFacts.

(** C2 as stated fails: the whitespace around the line is dropped, and a
    [$] inside a field makes a fourth part. *)
Lemma parse_well_formed_counterexample :
  parse_asreq_line (" alice" +:+ "$" +:+ "EXAMPLE.COM" +:+ "$" +:+ "deadbeef")
    <> Some (mkRecord " alice" "EXAMPLE.COM" "deadbeef")
  /\ parse_asreq_line ("al$ice" +:+ "$" +:+ "EXAMPLE.COM" +:+ "$" +:+ "deadbeef")
    <> Some (mkRecord "al$ice" "EXAMPLE.COM" "deadbeef").
Proof. split; vm_compute; discriminate. Qed.

(** C2 (amended): a line [U$D$C] whose fields are non-empty and free of [$],
    with no whitespace before [U] or after [C], parses to the record
    [(U, D, C)], in that order. *)
Theorem parse_well_formed (U D C : string) :
  U <> "" -> D <> "" -> C <> "" ->
  PyStr.has_char "$" U = false -> PyStr.has_char "$" D = false ->
  PyStr.has_char "$" C = false ->
  PyStr.lstrip U = U -> PyStr.rstrip C = C ->
  parse_asreq_line (U +:+ "$" +:+ D +:+ "$" +:+ C) = Some (mkRecord U D C).
Proof.
  intros HU HD HC HU' HD' HC' EU EC.
  rewrite parse_three_fields by done. rewrite EU, EC.
  destruct U, D, C; done.
Qed.

Lemma parse_well_formed_witness :
  parse_asreq_line ("alice" +:+ "$" +:+ "EXAMPLE.COM" +:+ "$" +:+ "deadbeef")
    = Some (mkRecord "alice" "EXAMPLE.COM" "deadbeef").
Proof.
  apply (parse_well_formed "alice" "EXAMPLE.COM" "deadbeef");
    solve [discriminate | reflexivity].
Defined.

(** C3: the parser returns no record on a line that is empty, made of
    whitespace only, that splits on [$] into a number of parts other than
    three, or one of whose parts (the line trimmed as a whole, not field by
    field) is empty. *)
Theorem parse_rejects_malformed (line : string) :
  line = ""
  \/ PyStr.all_space line = true
  \/ length (PyStr.split "$" line) <> 3%nat
  \/ "" ∈ PyStr.split "$" (PyStr.strip line) ->
  parse_asreq_line line = None.
Proof.
  intros H. unfold parse_asreq_line.
  assert (H' : length (PyStr.split "$" (PyStr.strip line)) <> 3%nat
               \/ "" ∈ PyStr.split "$" (PyStr.strip line)).
  { destruct H as [->|[H|[H|H]]]; [by left| |left|by right].
    - rewrite strip_all_space by done. by left.
    - by rewrite length_split_strip. }
  destruct (PyStr.split "$" (PyStr.strip line)) as [|u [|d [|c [|x xs]]]]; try done.
  destruct H' as [H'|H']; [done|].
  apply elem_of_cons in H' as [<-|H']; [done|].
  apply elem_of_cons in H' as [<-|H']; [by rewrite orb_true_r|].
  apply list_elem_of_singleton in H' as <-. by rewrite orb_true_r.
Qed.

Lemma parse_rejects_malformed_witness :
  parse_asreq_line "" = None
  /\ parse_asreq_line "   " = None
  /\ parse_asreq_line "alice$EXAMPLE.COM" = None
  /\ parse_asreq_line " $EXAMPLE.COM$deadbeef" = None.
Proof.
  split; [|split; [|split]].
  - apply parse_rejects_malformed. left. reflexivity.
  - apply parse_rejects_malformed. right. left. reflexivity.
  - apply parse_rejects_malformed. right. right. left. vm_compute. lia.
  - apply parse_rejects_malformed. right. right. right. vm_compute. left.
Defined.

(** C9: when the parser returns [(u, d, c)], joining the fields with [$]
    gives back the line without its surrounding whitespace, and no field
    holds a [$]. *)
Theorem parse_roundtrip (line u d c : string) :
  parse_asreq_line line = Some (mkRecord u d c) ->
  u +:+ "$" +:+ d +:+ "$" +:+ c = PyStr.strip line
  /\ PyStr.has_char "$" u = false
  /\ PyStr.has_char "$" d = false
  /\ PyStr.has_char "$" c = false.
Proof.
  unfold parse_asreq_line. intros H.
  pose proof (join_split "$" (PyStr.strip line)) as Hj.
  pose proof (split_no_sep "$" (PyStr.strip line)) as Hn.
  destruct (PyStr.split "$" (PyStr.strip line)) as [|u' [|d' [|c' [|x xs]]]];
    try done.
  destruct (_ || _); [done|]. injection H as -> -> ->.
  split; [exact Hj|].
  repeat split; apply Hn; set_solver.
Qed.

Lemma parse_roundtrip_witness :
  "alice" +:+ "$" +:+ "EXAMPLE.COM" +:+ "$" +:+ "deadbeef"
    = PyStr.strip "  alice$EXAMPLE.COM$deadbeef  "
  /\ PyStr.has_char "$" "alice" = false
  /\ PyStr.has_char "$" "EXAMPLE.COM" = false
  /\ PyStr.has_char "$" "deadbeef" = false.
Proof.
  apply (parse_roundtrip "  alice$EXAMPLE.COM$deadbeef  "). reflexivity.
Defined.

Section FormatFacts.
Import PyStr.

Lemma lower_char_is (lo up : ascii) :
  lower_char lo = lo -> lower_char up = lo ->
  (forall c, Ascii.eqb (lower_char c) lo = true -> Ascii.eqb c lo || Ascii.eqb c up = true) ->
  forall c, Ascii.eqb (lower_char c) lo = Ascii.eqb c lo || Ascii.eqb c up.
Proof.
  intros Hlo Hup H c. destruct (Ascii.eqb (lower_char c) lo) eqn:E.
  - symmetry. by apply H.
  - symmetry. apply orb_false_iff. split; apply Ascii.eqb_neq; intros ->;
      apply Ascii.eqb_neq in E; congruence.
Qed.

Ltac all_chars c := destruct c as [[] [] [] [] [] [] [] []]; vm_compute; congruence.

Lemma lower_char_j c : Ascii.eqb (lower_char c) "j" = Ascii.eqb c "j" || Ascii.eqb c "J".
Proof. apply lower_char_is; [done..|]. intros x. all_chars x. Qed.
Lemma lower_char_o c : Ascii.eqb (lower_char c) "o" = Ascii.eqb c "o" || Ascii.eqb c "O".
Proof. apply lower_char_is; [done..|]. intros x. all_chars x. Qed.
Lemma lower_char_h c : Ascii.eqb (lower_char c) "h" = Ascii.eqb c "h" || Ascii.eqb c "H".
Proof. apply lower_char_is; [done..|]. intros x. all_chars x. Qed.
Lemma lower_char_n c : Ascii.eqb (lower_char c) "n" = Ascii.eqb c "n" || Ascii.eqb c "N".
Proof. apply lower_char_is; [done..|]. intros x. all_chars x. Qed.

(** A string lowers to [john] exactly when it is one of its spellings. *)
Lemma lower_john fmt : lower fmt = "john" <-> john_variant fmt = true.
Proof.
  destruct fmt as [|a [|b [|c [|d [|e s]]]]]; simpl; try (split; discriminate).
  rewrite <- lower_char_j, <- lower_char_o, <- lower_char_h, <- lower_char_n.
  rewrite !andb_true_iff, !Ascii.eqb_eq. split.
  - intros [= -> -> -> ->]. done.
  - intros [[[-> ->] ->] ->]. done.
Qed.

Lemma format_asreq_hash_eq u d c fmt :
  format_asreq_hash u d c fmt =
    if john_variant fmt then john_text u d c else hashcat_text u d c.
Proof.
  unfold format_asreq_hash. destruct (decide (lower fmt = "john")) as [E|E].
  - apply lower_john in E as ->. done.
  - destruct (john_variant fmt) eqn:V; [|done].
    apply lower_john in V. done.
Qed.

End FormatFacts.

(** C4: for every record, the formatter gives [$krb5pa$18$], the principal,
    [$], the realm, [$] and the cipher in Hashcat mode, and the same with
    [$$] before the cipher in John mode.  The formatter is a total function
    to strings: it has no failure case. *)
Theorem format_asreq_hash_modes (R : CaptureRecord) :
  format_asreq_hash (principal_name R) (realm R) (cipher_hex R) (mode_name Hashcat)
    = "$krb5pa$18$" +:+ principal_name R +:+ "$" +:+ realm R +:+ "$" +:+ cipher_hex R
  /\ format_asreq_hash (principal_name R) (realm R) (cipher_hex R) (mode_name John)
    = "$krb5pa$18$" +:+ principal_name R +:+ "$" +:+ realm R +:+ "$$" +:+ cipher_hex R.
Proof. split; reflexivity. Qed.

(** C10: the formatter compares the mode in lower case.  A mode whose lower
    case is not [john] (any unrecognised string included) gives the Hashcat
    text, every spelling of [john] in upper and lower case gives the John
    text, and these are the only two results. *)
Theorem format_asreq_hash_fallback (username domain cipher fmt : string) :
  (PyStr.lower fmt <> "john" ->
     format_asreq_hash username domain cipher fmt = hashcat_text username domain cipher)
  /\ (john_variant fmt = true ->
     format_asreq_hash username domain cipher fmt = john_text username domain cipher)
  /\ (PyStr.lower fmt = "john" <-> john_variant fmt = true)
  /\ (format_asreq_hash username domain cipher fmt = hashcat_text username domain cipher
      \/ format_asreq_hash username domain cipher fmt = john_text username domain cipher).
Proof.
  rewrite format_asreq_hash_eq. pose proof (lower_john fmt) as L.
  destruct (john_variant fmt); intuition congruence.
Qed.

Lemma format_asreq_hash_fallback_witness :
  format_asreq_hash "alice" "EXAMPLE.COM" "deadbeef" "md5"
    = "$krb5pa$18$alice$EXAMPLE.COM$deadbeef"
  /\ format_asreq_hash "alice" "EXAMPLE.COM" "deadbeef" "JoHn"
    = "$krb5pa$18$alice$EXAMPLE.COM$$deadbeef".
Proof.
  split.
  - apply (proj1 (format_asreq_hash_fallback "alice" "EXAMPLE.COM" "deadbeef" "md5")).
    vm_compute. discriminate.
  - apply (proj1 (proj2 (format_asreq_hash_fallback
                           "alice" "EXAMPLE.COM" "deadbeef" "JoHn"))).
    reflexivity.
Defined.

(** ** Facts about the capture loop *)

Ltac unfold_M :=
  unfold mbind, M_bind, mret, M_ret, try_pass, try_except, raise in *.

Section CaptureFacts.
Variable clock : nat -> string.
Variable io_error : World -> Path -> bool.

Local Abbreviation process_line := (process_line clock io_error).
Local Abbreviation run_loop := (run_loop clock io_error).
Local Abbreviation run := (run clock io_error).
Local Abbreviation reported := (reported clock).
Local Abbreviation persisted := (persisted clock).
Local Abbreviation after_records := (after_records clock).
Local Abbreviation report := (report clock).

Lemma parse_strip line : parse_asreq_line (PyStr.strip line) = parse_asreq_line line.
Proof. unfold parse_asreq_line. by rewrite strip_idem. Qed.

Lemma parse_blank line : PyStr.strip line = "" -> parse_asreq_line line = None.
Proof. intros H. unfold parse_asreq_line. by rewrite H. Qed.

(** The loop body, case by case. *)
Lemma process_line_eq l line w :
  process_line l line w =
    match parse_asreq_line line with
    | None => (Ok tt, w)
    | Some r =>
        let uf := user_file (out_dir l) (principal_name r) (realm r) in
        let text := hash_of (format l) r +:+ LF in
        let w1 := reported l w r in
        if no_files l then (Ok tt, w1)
        else if io_error w1 uf then (Raise OSError, w1)
        else if io_error (appended w1 uf text) (all_hashes_file l)
             then (Raise OSError, appended w1 uf text)
             else (Ok tt, persisted l w r)
    end.
Proof.
  unfold process_line. cbv zeta.
  destruct (PyStr.is_empty (PyStr.strip line)) eqn:E.
  - apply is_empty_true in E. rewrite (parse_blank _ E). reflexivity.
  - rewrite parse_strip.
    destruct (parse_asreq_line line) as [[u d c]|]; [|reflexivity].
    unfold_M. unfold now, print, write_output, append_text, persisted, reported,
      hash_of, set_console, set_ticks. simpl.
    rewrite <- (List.app_assoc (console w)). simpl.
    destruct (no_files l); simpl; [reflexivity|].
    destruct (io_error _ _); [reflexivity|].
    destruct (io_error _ _); reflexivity.
Qed.

Lemma process_line_skip l line w :
  parse_asreq_line line = None -> process_line l line w = (Ok tt, w).
Proof. intros H. by rewrite process_line_eq, H. Qed.


Lemma run_loop_body_ok l line rest w w1 :
  stop l = false ->
  process_line l line w = (Ok tt, w1) ->
  run_loop (Line line :: rest) l w = run_loop rest l w1.
Proof. intros Hs H. simpl. rewrite Hs. unfold_M. by rewrite H. Qed.

Lemma run_raises evs l w e w1 p :
  proc l = Some p ->
  run_loop evs l w = (Raise e, w1) ->
  run evs l w = (Raise e, w1).
Proof. intros Hp H. unfold run. rewrite Hp. unfold_M. by rewrite H. Qed.

(** While nothing refuses a write (or persistence is off) and no signal
    arrives, the loop handles every parseable line in full, in order. *)
Lemma run_loop_lines lines l w :
  stop l = false ->
  (no_files l = true \/ forall w' q, io_error w' q = false) ->
  run_loop (List.map Line lines) l w
    = (Ok l, after_records l w (omap parse_asreq_line lines)).
Proof.
  intros Hs Hio. revert w. induction lines as [|s lines IH]; intros w; [done|].
  cbn [List.map]. 
  assert (Hb : process_line l s w =
    (Ok tt, match parse_asreq_line s with
            | Some r => if no_files l then reported l w r else persisted l w r
            | None => w end)).
  { rewrite process_line_eq. destruct (parse_asreq_line s) as [r|]; [|done].
    cbv zeta. destruct (no_files l); [done|].
    destruct Hio as [?|Hio]; [done|]. by rewrite !Hio. }
  rewrite (run_loop_body_ok _ _ _ _ _ Hs Hb), IH.
  cbn [omap list_omap]. destruct (parse_asreq_line s); done.
Qed.

(** The drain after the loop touches the process table and the handle
    only. *)
Lemma poll_frame p w :
  exists p' w', poll p w = (Ok p', w') /\ pid p' = pid p
    /\ files w' = files w /\ dirs w' = dirs w
    /\ console w' = console w /\ ticks w' = ticks w.
Proof.
  unfold poll. destruct (returncode p); [by eauto 10|].
  destruct (procs w !! pid p) as [[g [| |c]]|]; simpl; eauto 10.
Qed.

Lemma terminate_frame p w :
  exists p' w', terminate p w = (Ok p', w')
    /\ files w' = files w /\ dirs w' = dirs w
    /\ console w' = console w /\ ticks w' = ticks w.
Proof.
  unfold terminate. unfold_M.
  destruct (poll_frame p w) as (p' & w' & -> & _ & Hf & Hd & Hc & Ht).
  destruct (returncode p'); [by eauto 10|].
  unfold kill. destruct (procs w' !! pid p'); simpl; eauto 10.
Qed.

Lemma run_after_loop evs l w l1 w1 p :
  proc l = Some p ->
  run_loop evs l w = (Ok l1, w1) ->
  exists l' w', run evs l w = (Ok l', w')
    /\ files w' = files w1 /\ dirs w' = dirs w1
    /\ console w' = console w1 /\ ticks w' = ticks w1
    /\ stop l' = stop l1 /\ no_files l' = no_files l1
    /\ format l' = format l1.
Proof.
  intros Hp H. unfold run. rewrite Hp. unfold_M. rewrite H.
  destruct (proc l1) as [p1|]; [|by eauto 12].
  destruct (poll_frame p1 w1) as (p' & w' & -> & _ & Hf & Hd & Hc & Ht).
  destruct (returncode p'); [by eauto 12|].
  destruct (terminate_frame p' w') as (p'' & w'' & -> & Hf' & Hd' & Hc' & Ht').
  do 2 eexists. split; [done|]. simpl. repeat split; congruence.
Qed.

(** What [after_records] leaves on the console, in the files, in the
    directories. *)
Lemma after_records_console l w rs :
  console (after_records l w rs)
    = console w ++ report (format l) (ticks w) rs.
Proof.
  revert w. induction rs as [|r rs IH]; intros w; simpl.
  - by rewrite app_nil_r.
  - rewrite IH. destruct (no_files l); simpl; by rewrite <- List.app_assoc.
Qed.

Lemma after_records_ticks l w rs :
  ticks (after_records l w rs) = (ticks w + length rs)%nat.
Proof.
  revert w. induction rs as [|r rs IH]; intros w; simpl; [lia|].
  rewrite IH. destruct (no_files l); simpl; lia.
Qed.

Lemma after_records_no_files l w rs :
  no_files l = true ->
  files (after_records l w rs) = files w /\ dirs (after_records l w rs) = dirs w.
Proof.
  intros Hn. revert w. induction rs as [|r rs IH]; intros w; simpl; [done|].
  rewrite Hn. destruct (IH (reported l w r)) as [-> ->]. done.
Qed.

(** A started listener that is not stopped, fed lines while nothing
    refuses a write: [run] ends well, in the world [after_records] gives, up
    to the process table. *)
Lemma run_lines lines l w p :
  proc l = Some p -> stop l = false ->
  (no_files l = true \/ forall w' q, io_error w' q = false) ->
  exists l' w',
    run (List.map Line lines) l w = (Ok l', w')
    /\ console w' = console w ++
         report (format l) (ticks w) (omap parse_asreq_line lines)
    /\ files w' = files (after_records l w (omap parse_asreq_line lines))
    /\ dirs w' = dirs (after_records l w (omap parse_asreq_line lines)).
Proof.
  intros Hp Hs Hio.
  pose proof (run_loop_lines lines l w Hs Hio) as Hloop.
  destruct (run_after_loop _ _ _ _ _ _ Hp Hloop)
    as (l' & w' & Hrun & Hf & Hd & Hc & _).
  exists l', w'. split; [exact Hrun|]. split; [|done].
  rewrite Hc. apply after_records_console.
Qed.

(** The scenario of three lines, the middle one not parseable. *)
Lemma run_three_lines L1 L2 L3 r1 r3 l w p :
  proc l = Some p -> stop l = false ->
  (no_files l = true \/ forall w' q, io_error w' q = false) ->
  parse_asreq_line L1 = Some r1 -> parse_asreq_line L2 = None ->
  parse_asreq_line L3 = Some r3 ->
  exists l' w',
    run [Line L1; Line L2; Line L3] l w = (Ok l', w')
    /\ console w' = console w ++
         [console_header (clock (ticks w)) (principal_name r1) (realm r1);
          hash_of (format l) r1;
          console_header (clock (S (ticks w))) (principal_name r3) (realm r3);
          hash_of (format l) r3].
Proof.
  intros Hp Hs Hio H1 H2 H3.
  destruct (run_lines [L1; L2; L3] l w p Hp Hs Hio)
    as (l' & w' & Hrun & Hc & _).
  exists l', w'. split; [exact Hrun|].
  rewrite Hc. cbn [omap list_omap]. by rewrite H1, H2, H3.
Qed.



Lemma persisted_files l w r :
  files (persisted l w r)
    = let uf := user_file (out_dir l) (principal_name r) (realm r) in
      let text := hash_of (format l) r +:+ LF in
      let f1 := <[uf := default "" (files w !! uf) +:+ text]> (files w) in
      <[all_hashes_file l := default "" (f1 !! all_hashes_file l) +:+ text]> f1.
Proof. reflexivity. Qed.

Lemma persisted_lookup_aggregate l w r :
  user_file (out_dir l) (principal_name r) (realm r) <> all_hashes_file l ->
  files (persisted l w r) !! all_hashes_file l
    = Some (default "" (files w !! all_hashes_file l)
            +:+ hash_of (format l) r +:+ LF).
Proof.
  intros Hne. rewrite persisted_files. cbv zeta.
  by rewrite lookup_insert_eq, lookup_insert_ne.
Qed.

Lemma persisted_lookup_user l w r :
  user_file (out_dir l) (principal_name r) (realm r) <> all_hashes_file l ->
  files (persisted l w r) !! user_file (out_dir l) (principal_name r) (realm r)
    = Some (default "" (files w !! user_file (out_dir l) (principal_name r) (realm r))
            +:+ hash_of (format l) r +:+ LF).
Proof.
  intros Hne. rewrite persisted_files. cbv zeta.
  by rewrite lookup_insert_ne, lookup_insert_eq.
Qed.

Lemma persisted_lookup_other l w r q :
  q <> user_file (out_dir l) (principal_name r) (realm r) ->
  q <> all_hashes_file l ->
  files (persisted l w r) !! q = files w !! q.
Proof.
  intros H1 H2. rewrite persisted_files. cbv zeta.
  by rewrite !lookup_insert_ne.
Qed.


End CaptureFacts.

(** ** Facts about signals and shutdown *)

Lemma group_exists_iff g (ps : gmap Z process) :
  group_exists g ps = true <-> exists k pr, ps !! k = Some pr /\ pgid pr = g.
Proof.
  unfold group_exists. rewrite existsb_exists. split.
  - intros ([k pr] & Hin & Hg). exists k, pr.
    apply list_elem_of_In, elem_of_map_to_list in Hin.
    split; [done|]. by apply bool_decide_eq_true in Hg.
  - intros (k & pr & Hk & Hg). exists (k, pr). split.
    + by apply list_elem_of_In, elem_of_map_to_list.
    + by apply bool_decide_eq_true.
Qed.

Lemma pgid_deliver_sigterm pr : pgid (deliver_sigterm pr) = pgid pr.
Proof. unfold deliver_sigterm. by destruct (status pr). Qed.

Lemma pgid_signal_group g pr : pgid (signal_group g pr) = pgid pr.
Proof.
  unfold signal_group. destruct (in_group g pr); [|done].
  apply pgid_deliver_sigterm.
Qed.

Lemma deliver_sigterm_idem pr :
  deliver_sigterm (deliver_sigterm pr) = deliver_sigterm pr.
Proof. unfold deliver_sigterm. by destruct pr as [g [| |c]]. Qed.

Lemma signal_group_idem g pr :
  signal_group g (signal_group g pr) = signal_group g pr.
Proof.
  unfold signal_group at 2 3. destruct (in_group g pr) eqn:E.
  - unfold signal_group, in_group in *. rewrite pgid_deliver_sigterm, E.
    apply deliver_sigterm_idem.
  - unfold signal_group. by rewrite E.
Qed.

Lemma signal_group_stops g pr :
  pgid pr = g -> status (signal_group g pr) <> Running.
Proof.
  intros Hg. unfold signal_group, in_group.
  rewrite bool_decide_eq_true_2 by done.
  unfold deliver_sigterm. by destruct pr as [g' [| |c]].
Qed.

(** [shutdown] in closed form: it never raises. *)
Lemma shutdown_eq l w :
  shutdown l w =
    (Ok (set_stop l true),
     match proc l with
     | Some p =>
         match procs w !! pid p with
         | Some pr => set_procs w (signal_group (pgid pr) <$> procs w)
         | None => w
         end
     | None => w
     end).
Proof.
  unfold shutdown. simpl. destruct (proc l) as [p|]; [|reflexivity].
  unfold_M. unfold getpgid.
  destruct (procs w !! pid p) as [pr|] eqn:E; [|reflexivity].
  unfold killpg.
  assert (group_exists (pgid pr) (procs w) = true) as ->
    by (apply group_exists_iff; eauto).
  reflexivity.
Qed.

Lemma shutdown_frame l w :
  exists w', shutdown l w = (Ok (set_stop l true), w')
    /\ files w' = files w /\ dirs w' = dirs w
    /\ console w' = console w /\ ticks w' = ticks w.
Proof.
  rewrite shutdown_eq. eexists. split; [done|].
  destruct (proc l) as [p|]; [|done]. by destruct (procs w !! pid p).
Qed.

(** C7: [shutdown] never raises, whatever the process table holds; it
    leaves the stop flag set and every process of the child's group
    signalled (none is left in the status [Running]); a second call right after the first
    changes nothing and raises nothing; and when the child is gone from
    the process table the call leaves the world as it is. *)
Theorem shutdown_idempotent (l : TsharkListener) (w : World) :
  exists l1 w1,
    shutdown l w = (Ok l1, w1)
    /\ shutdown l1 w1 = (Ok l1, w1)
    /\ stop l1 = true
    /\ (forall p pr, proc l = Some p -> procs w !! pid p = Some pr ->
        forall k q, procs w1 !! k = Some q -> pgid q = pgid pr ->
                    status q <> Running)
    /\ (forall p, proc l = Some p -> procs w !! pid p = None -> w1 = w).
Proof.
  rewrite shutdown_eq. do 2 eexists. split; [reflexivity|].
  split; [|split; [done|split]].
  - rewrite shutdown_eq. f_equal.
    change (proc (set_stop l true)) with (proc l).
    destruct (proc l) as [p|]; [|done].
    destruct (procs w !! pid p) as [pr|] eqn:E; [|by rewrite E].
    cbn [procs set_procs]. rewrite lookup_fmap, E. cbn [fmap option_fmap option_map].
    rewrite pgid_signal_group. unfold set_procs. cbn [files dirs console ticks procs].
    f_equal. rewrite <- map_fmap_compose. apply map_fmap_ext.
    intros k x _. apply signal_group_idem.
  - intros p pr -> E k q. rewrite E. cbn [procs set_procs].
    rewrite lookup_fmap. destruct (procs w !! k) as [x|]; [|done].
    intros [= <-]. rewrite pgid_signal_group. apply signal_group_stops.
  - intros p -> E. by rewrite E.
Qed.

Section NoFiles.
Variable clock : nat -> string.
Variable io_error : World -> Path -> bool.

Lemma handle_sigint_frame l w :
  exists w', handle_sigint l w = (Ok (set_stop l true), w')
    /\ files w' = files w /\ dirs w' = dirs w.
Proof.
  unfold handle_sigint. unfold_M. unfold print.
  destruct (shutdown_frame l (set_console w (console w ++ [LF +:+ "[!] Stopping listener..."])))
    as (w' & -> & Hf & Hd & _). eauto.
Qed.

(** With persistence off the loop never raises and leaves files and
    directories alone, whatever arrives. *)
Lemma run_loop_no_files evs l w :
  no_files l = true ->
  exists l' w', run_loop clock io_error evs l w = (Ok l', w')
    /\ files w' = files w /\ dirs w' = dirs w.
Proof.
  intros Hn. revert l w Hn. induction evs as [|[s|] evs IH]; intros l w Hn.
  - by eauto.
  - simpl. destruct (stop l); [by eauto|]. unfold_M.
    rewrite process_line_eq, Hn.
    destruct (parse_asreq_line s) as [r|]; cbv zeta.
    + destruct (IH l (reported clock l w r) Hn) as (l' & w' & -> & Hf & Hd).
      eauto.
    + by apply IH.
  - simpl. unfold_M.
    destruct (handle_sigint_frame l w) as (w1 & -> & Hf & Hd).
    destruct (IH (set_stop l true) w1 Hn) as (l' & w' & -> & Hf' & Hd').
    do 2 eexists. split; [done|]. split; congruence.
Qed.

Lemma run_no_files evs l w :
  no_files l = true ->
  files (run clock io_error evs l w).2 = files w
  /\ dirs (run clock io_error evs l w).2 = dirs w.
Proof.
  intros Hn. destruct (proc l) as [p|] eqn:Hp.
  - destruct (run_loop_no_files evs l w Hn) as (l1 & w1 & H1 & Hf & Hd).
    destruct (run_after_loop clock io_error evs l w l1 w1 p Hp H1)
      as (l' & w' & -> & Hf' & Hd' & _).
    simpl. split; congruence.
  - unfold run. rewrite Hp. done.
Qed.

End NoFiles.

(** ** The capture loop: persistence, ordering, failures *)




(** C5 as stated fails twice over.  A principal [all_hashes] of realm
    [hashcat] has the aggregate file as its own: that one file gets the line
    twice.  And when the aggregate file cannot be opened, it gets no line
    although the per-identity file has its own. *)
Lemma record_persisted_counterexample :
  user_file (out_dir (Demo.listener "hashcat" false)) "all_hashes" "hashcat"
    = all_hashes_file (Demo.listener "hashcat" false)
  /\ files (process_line Demo.clock Demo.no_error (Demo.listener "hashcat" false)
              "all_hashes$hashcat$deadbeef" Demo.world0).2
       !! all_hashes_file (Demo.listener "hashcat" false)
     = Some ("$krb5pa$18$all_hashes$hashcat$deadbeef" +:+ LF
             +:+ "$krb5pa$18$all_hashes$hashcat$deadbeef" +:+ LF)
  /\ files (process_line Demo.clock
              (Demo.refuse (all_hashes_file (Demo.listener "hashcat" false)))
              (Demo.listener "hashcat" false) Demo.alice Demo.world0).2
       !! all_hashes_file (Demo.listener "hashcat" false)
     = None
  /\ files (process_line Demo.clock
              (Demo.refuse (all_hashes_file (Demo.listener "hashcat" false)))
              (Demo.listener "hashcat" false) Demo.alice Demo.world0).2
       !! user_file (out_dir (Demo.listener "hashcat" false)) "alice" "EXAMPLE.COM"
     = Some ("$krb5pa$18$alice$EXAMPLE.COM$deadbeef" +:+ LF).
Proof. repeat split; vm_compute; reflexivity. Qed.

(** C5 (amended): with persistence on, for a parsed record whose
    principal and realm hold no [/] and whose file name
    [<principal>_<realm>.txt] is not the name [all_hashes_<mode>.txt] of the
    aggregate file, and when both files can be opened, the loop body appends
    the formatted hash and a line feed, once, to each of the two files of
    the output directory, whatever they already hold (nothing is
    deduplicated); other files and the directories are left alone.  For a
    listener built for a mode, the aggregate file is [all_hashes_<mode>.txt]
    in the output directory. *)
Theorem record_persisted (clock : nat -> string)
    (io_error : World -> Path -> bool) (l : TsharkListener) (w : World)
    (line : string) (r : CaptureRecord) :
  parse_asreq_line line = Some r ->
  no_files l = false ->
  PyStr.has_char "/" (principal_name r) = false ->
  PyStr.has_char "/" (realm r) = false ->
  PyStr.has_char "/" (format l) = false ->
  all_hashes_file l = out_dir l // ("all_hashes_" +:+ format l +:+ ".txt") ->
  principal_name r +:+ "_" +:+ realm r +:+ ".txt"
    <> "all_hashes_" +:+ format l +:+ ".txt" ->
  (forall w', io_error w'
     (out_dir l // (principal_name r +:+ "_" +:+ realm r +:+ ".txt")) = false) ->
  (forall w', io_error w'
     (out_dir l // ("all_hashes_" +:+ format l +:+ ".txt")) = false) ->
  (exists w',
    process_line clock io_error l line w = (Ok tt, w')
    /\ files w' !! (out_dir l // (principal_name r +:+ "_" +:+ realm r +:+ ".txt"))
       = Some (default "" (files w !! (out_dir l //
                  (principal_name r +:+ "_" +:+ realm r +:+ ".txt")))
               +:+ hash_of (format l) r +:+ LF)
    /\ files w' !! (out_dir l // ("all_hashes_" +:+ format l +:+ ".txt"))
       = Some (default "" (files w !!
                  (out_dir l // ("all_hashes_" +:+ format l +:+ ".txt")))
               +:+ hash_of (format l) r +:+ LF)
    /\ (forall q,
          q <> out_dir l // (principal_name r +:+ "_" +:+ realm r +:+ ".txt") ->
          q <> out_dir l // ("all_hashes_" +:+ format l +:+ ".txt") ->
          files w' !! q = files w !! q)
    /\ dirs w' = dirs w)
  /\ (forall iface dir m nf,
        all_hashes_file (init iface dir (mode_name m) nf)
          = dir // ("all_hashes_" +:+ mode_name m +:+ ".txt")).
Proof.
  intros Hr Hn Hpu Hpd Hpf Hagg Hname Hu Ha. split; [|by intros ? ? [] ?].
  destruct (user_name_plain _ _ Hpu Hpd) as (Hu1 & Hu2 & Hu3).
  destruct (aggregate_name_plain _ Hpf) as (Ha1 & Ha2 & Ha3).
  pose proof (truediv_plain_ne (out_dir l) _ _ Hu1 Ha1 Ha2 Ha3 Hname) as Hne.
  rewrite <- Hagg in *.
  exists (persisted clock l w r).
  rewrite process_line_eq, Hr, Hn. cbv zeta.
  change (out_dir l // (principal_name r +:+ "_" +:+ realm r +:+ ".txt"))
    with (user_file (out_dir l) (principal_name r) (realm r)) in *.
  rewrite Hu, Ha. split; [done|].
  split; [by apply persisted_lookup_user|].
  split; [by apply persisted_lookup_aggregate|].
  split; [|done]. intros q. apply persisted_lookup_other.
Qed.

Lemma record_persisted_witness :
  exists w',
    process_line Demo.clock Demo.no_error (Demo.listener "hashcat" false)
                 Demo.alice Demo.world0 = (Ok tt, w')
    /\ files w' !! (PyPath.of_string "./kerberos_captures" // "alice_EXAMPLE.COM.txt")
       = Some ("$krb5pa$18$alice$EXAMPLE.COM$deadbeef" +:+ LF)
    /\ files w' !! (PyPath.of_string "./kerberos_captures" // "all_hashes_hashcat.txt")
       = Some ("$krb5pa$18$alice$EXAMPLE.COM$deadbeef" +:+ LF).
Proof.
  destruct (proj1 (record_persisted Demo.clock Demo.no_error
              (Demo.listener "hashcat" false) Demo.world0 Demo.alice
              (mkRecord "alice" "EXAMPLE.COM" "deadbeef")
              eq_refl eq_refl eq_refl eq_refl eq_refl eq_refl
              ltac:(vm_compute; discriminate)
              (fun _ => eq_refl) (fun _ => eq_refl)))
    as (w' & Hrun & Hu & Ha & _).
  exists w'. split; [exact Hrun|]. split; [exact Hu|exact Ha].
Defined.



(** C8: with persistence off, [ensure_output_dir] only prints its notice,
    and [run] creates and writes no file and no directory, whatever arrives
    and however many lines are valid; fed lines while not stopped, it still
    puts the header and the formatted hash of every valid line on the
    console. *)
Theorem no_files_no_writes (clock : nat -> string)
    (io_error : World -> Path -> bool) (l : TsharkListener) (w : World) :
  no_files l = true ->
  ensure_output_dir io_error (out_dir l) (no_files l) w
    = (Ok tt, set_console w (console w ++ ["[*] No output files will be created"]))
  /\ (forall evs,
        files (run clock io_error evs l w).2 = files w
        /\ dirs (run clock io_error evs l w).2 = dirs w)
  /\ (forall lines p, proc l = Some p -> stop l = false ->
        exists l' w',
          run clock io_error (List.map Line lines) l w = (Ok l', w')
          /\ console w' = console w ++
               report clock (format l) (ticks w) (omap parse_asreq_line lines)).
Proof.
  intros Hn. split; [by rewrite Hn|]. split.
  - intros evs. by apply run_no_files.
  - intros lines p Hp Hs.
    destruct (run_lines clock io_error lines l w p Hp Hs (or_introl Hn))
      as (l' & w' & Hrun & Hc & _).
    eauto.
Qed.

Lemma no_files_no_writes_witness :
  (forall evs,
     files (run Demo.clock Demo.no_error evs
                (Demo.listener "hashcat" true) Demo.world0).2 = ∅
     /\ dirs (run Demo.clock Demo.no_error evs
                 (Demo.listener "hashcat" true) Demo.world0).2 = ∅)
  /\ exists l' w',
       run Demo.clock Demo.no_error (List.map Line [Demo.alice; Demo.alice])
           (Demo.listener "hashcat" true) Demo.world0 = (Ok l', w')
       /\ console w' =
            ["[+] 2024-05-01 10:00:00 - Captured AS-REQ for alice@EXAMPLE.COM";
             "$krb5pa$18$alice$EXAMPLE.COM$deadbeef";
             "[+] 2024-05-01 10:00:01 - Captured AS-REQ for alice@EXAMPLE.COM";
             "$krb5pa$18$alice$EXAMPLE.COM$deadbeef"].
Proof.
  destruct (no_files_no_writes Demo.clock Demo.no_error
              (Demo.listener "hashcat" true) Demo.world0 eq_refl)
    as (_ & Hframe & Hcons).
  split; [exact Hframe|].
  exact (Hcons [Demo.alice; Demo.alice] (mkPopen 4242 None) eq_refl eq_refl).
Defined.

(** ** Examples *)

Example parse_alice :
  parse_asreq_line "  alice$EXAMPLE.COM$deadbeef
" = Some (mkRecord "alice" "EXAMPLE.COM" "deadbeef").
Proof. reflexivity. Qed.

Example parse_rejects :
  List.map parse_asreq_line
    [""; "   "; "a$b"; "a$b$c$d"; "$b$c"; "a$$c"; "a$b$"; " $b$c"]
  = [None; None; None; None; None; None; None; None].
Proof. reflexivity. Qed.

(** Only the line as a whole is trimmed: whitespace inside stays, and a
    field of whitespace in the middle is a field. *)
Example parse_keeps_inner_space :
  parse_asreq_line " al ice$ $dead beef " = Some (mkRecord "al ice" " " "dead beef").
Proof. reflexivity. Qed.

Example format_alice :
  format_asreq_hash "alice" "EXAMPLE.COM" "deadbeef" "hashcat"
    = "$krb5pa$18$alice$EXAMPLE.COM$deadbeef"
  /\ format_asreq_hash "alice" "EXAMPLE.COM" "deadbeef" "John"
    = "$krb5pa$18$alice$EXAMPLE.COM$$deadbeef".
Proof. split; reflexivity. Qed.

Example path_examples :
  PyPath.of_string "//a/./b//c/" = mkPath "//" ["a"; "b"; "c"]
  /\ PyPath.of_string "///a" = mkPath "/" ["a"]
  /\ PyPath.of_string "out" // "/tmp/x.txt" = mkPath "/" ["tmp"; "x.txt"]
  /\ PyPath.to_string (PyPath.of_string "./kerberos_captures" // "a_B.txt")
     = "kerberos_captures/a_B.txt".
Proof. repeat split. Qed.

(** A signal between two lines: the handler prints its notice and signals
    the group, the loop stops at the next line, the drain signals the
    decoder again, and the [shutdown] that [main] runs at the end changes
    nothing more. *)
Example interrupt_between_lines :
  exists l1 w1,
    run Demo.clock Demo.no_error [Line Demo.alice; Interrupt; Line Demo.bob]
        (Demo.listener "john" true) Demo.world0 = (Ok l1, w1)
    /\ stop l1 = true
    /\ console w1 =
         ["[+] 2024-05-01 10:00:00 - Captured AS-REQ for alice@EXAMPLE.COM";
          "$krb5pa$18$alice$EXAMPLE.COM$$deadbeef";
          LF +:+ "[!] Stopping listener..."]
    /\ procs w1 = {[ 4242 := mkProcess 4242 Signalled ]}
    /\ shutdown l1 w1 = (Ok l1, w1).
Proof. do 2 eexists. split; [vm_compute; reflexivity|]. repeat split. Qed.

(** Two calls in a row while the decoder still runs: the first one signals
    it, the second leaves everything as it is. *)
Example shutdown_twice :
  exists l1 w1,
    shutdown (Demo.listener "hashcat" false) Demo.world0 = (Ok l1, w1)
    /\ stop l1 = true
    /\ procs w1 = {[ 4242 := mkProcess 4242 Signalled ]}
    /\ shutdown l1 w1 = (Ok l1, w1).
Proof. do 2 eexists. split; [vm_compute; reflexivity|]. repeat split. Qed.

(** ** More on the parser and the formatter *)

Section HashFacts.
Import PyStr.

Lemma parse_some_inv line u d c :
  parse_asreq_line line = Some (mkRecord u d c) ->
  strip line = u +:+ "$" +:+ d +:+ "$" +:+ c
  /\ u <> "" /\ d <> "" /\ c <> ""
  /\ has_char "$" u = false /\ has_char "$" d = false
  /\ has_char "$" c = false.
Proof.
  unfold parse_asreq_line. intros H.
  pose proof (join_split "$" (strip line)) as Hj.
  pose proof (split_no_sep "$" (strip line)) as Hn.
  destruct (split "$" (strip line)) as [|u' [|d' [|c' [|x xs]]]];
    try done.
  destruct (is_empty u') eqn:Eu; [done|].
  destruct (is_empty d') eqn:Ed; [done|].
  destruct (is_empty c') eqn:Ec; [done|].
  injection H as -> -> ->. split; [by rewrite <- Hj|].
  split; [by destruct u|]. split; [by destruct d|]. split; [by destruct c|].
  split; [|split]; apply Hn; set_solver.
Qed.

Lemma parse_of_fields line u d c :
  strip line = u +:+ "$" +:+ d +:+ "$" +:+ c ->
  u <> "" -> d <> "" -> c <> "" ->
  has_char "$" u = false -> has_char "$" d = false ->
  has_char "$" c = false ->
  parse_asreq_line line = Some (mkRecord u d c).
Proof.
  intros E Hu Hd Hc Hu' Hd' Hc'. unfold parse_asreq_line. rewrite E.
  change ("$" +:+ d +:+ "$" +:+ c) with (String "$" (d +:+ String "$" c)).
  rewrite split_app by done. rewrite split_app by done.
  rewrite split_single by done.
  destruct u, d, c; done.
Qed.

Lemma lower_char_idem c : lower_char (lower_char c) = lower_char c.
Proof. destruct c as [[] [] [] [] [] [] [] []]; reflexivity. Qed.

Lemma lower_idem s : lower (lower s) = lower s.
Proof.
  induction s as [|a s IH]; [done|]. simpl. by rewrite lower_char_idem, IH.
Qed.

Lemma hashcat_text_split u d c :
  has_char "$" u = false -> has_char "$" d = false -> has_char "$" c = false ->
  split "$" (hashcat_text u d c) = [""; "krb5pa"; "18"; u; d; c].
Proof.
  intros Hu Hd Hc. unfold hashcat_text.
  change ("$krb5pa$18$" +:+ u +:+ "$" +:+ d +:+ "$" +:+ c)
    with ("" +:+ String "$" ("krb5pa" +:+ String "$" ("18" +:+ String "$"
            (u +:+ String "$" (d +:+ String "$" c))))).
  rewrite !split_app by done. by rewrite split_single.
Qed.

Lemma john_text_split u d c :
  has_char "$" u = false -> has_char "$" d = false -> has_char "$" c = false ->
  split "$" (john_text u d c) = [""; "krb5pa"; "18"; u; d; ""; c].
Proof.
  intros Hu Hd Hc. unfold john_text.
  change ("$krb5pa$18$" +:+ u +:+ "$" +:+ d +:+ "$$" +:+ c)
    with ("" +:+ String "$" ("krb5pa" +:+ String "$" ("18" +:+ String "$"
            (u +:+ String "$" (d +:+ String "$" ("" +:+ String "$" c)))))).
  rewrite !split_app by done. by rewrite split_single.
Qed.

Lemma hash_of_eq fmt r :
  hash_of fmt r =
    if john_variant fmt
    then john_text (principal_name r) (realm r) (cipher_hex r)
    else hashcat_text (principal_name r) (realm r) (cipher_hex r).
Proof. unfold hash_of. apply format_asreq_hash_eq. Qed.

End HashFacts.

(** X1: the parser accepts exactly the lines that, trimmed, are three
    non-empty fields without [$] joined by [$], and returns these fields. *)
Theorem parse_asreq_line_iff (line u d c : string) :
  parse_asreq_line line = Some (mkRecord u d c)
  <-> PyStr.strip line = u +:+ "$" +:+ d +:+ "$" +:+ c
      /\ u <> "" /\ d <> "" /\ c <> ""
      /\ PyStr.has_char "$" u = false /\ PyStr.has_char "$" d = false
      /\ PyStr.has_char "$" c = false.
Proof.
  split; [apply parse_some_inv|].
  intros (E & Hu & Hd & Hc & Hu' & Hd' & Hc'). by apply parse_of_fields.
Qed.

(** X2: on the records the parser gives, the formatter loses nothing: in
    one mode two records with the same hash are the same record, and a John
    text is never a Hashcat text. *)
Theorem hash_of_parsed_injective (fmt fmt' line1 line2 : string)
    (r1 r2 : CaptureRecord) :
  parse_asreq_line line1 = Some r1 ->
  parse_asreq_line line2 = Some r2 ->
  (hash_of fmt r1 = hash_of fmt r2 -> r1 = r2)
  /\ (john_variant fmt = true -> john_variant fmt' = false ->
      hash_of fmt r1 <> hash_of fmt' r2).
Proof.
  destruct r1 as [u1 d1 c1], r2 as [u2 d2 c2].
  intros (_ & _ & _ & _ & Hu1 & Hd1 & Hc1)%parse_some_inv
         (_ & _ & _ & _ & Hu2 & Hd2 & Hc2)%parse_some_inv.
  split.
  - rewrite !hash_of_eq. simpl. intros H%(f_equal (PyStr.split "$")).
    destruct (john_variant fmt).
    + rewrite !john_text_split in H by done. by injection H as -> -> ->.
    + rewrite !hashcat_text_split in H by done. by injection H as -> -> ->.
  - intros V V'. rewrite !hash_of_eq, V, V'. simpl.
    intros H%(f_equal (PyStr.split "$")).
    rewrite john_text_split, hashcat_text_split in H by done. done.
Qed.

Lemma hash_of_parsed_injective_witness :
  hash_of "john" (mkRecord "alice" "EXAMPLE.COM" "deadbeef")
    <> hash_of "hashcat" (mkRecord "bob" "EXAMPLE.COM" "cafe").
Proof.
  apply (proj2 (hash_of_parsed_injective "john" "hashcat" Demo.alice Demo.bob
                  (mkRecord "alice" "EXAMPLE.COM" "deadbeef")
                  (mkRecord "bob" "EXAMPLE.COM" "cafe") eq_refl eq_refl));
    reflexivity.
Defined.

(** X3: a listener formats as the formatter does on the mode it was built
    with, in whatever case the mode is spelled, and every spelling of
    [john] shares the aggregate file [all_hashes_john.txt]. *)
Theorem init_mode_case (iface : string) (dir : Path) (fmt : string)
    (nf : bool) (r : CaptureRecord) :
  hash_of (format (init iface dir fmt nf)) r = hash_of fmt r
  /\ (john_variant fmt = true ->
      all_hashes_file (init iface dir fmt nf) = dir // "all_hashes_john.txt"
      /\ init iface dir fmt nf = init iface dir "john" nf).
Proof.
  split.
  - unfold hash_of, format_asreq_hash. simpl. by rewrite lower_idem.
  - intros V%lower_john. unfold init. by rewrite V.
Qed.

Lemma init_mode_case_witness :
  all_hashes_file (init "eth0" (PyPath.of_string "out") "JoHn" false)
    = PyPath.of_string "out" // "all_hashes_john.txt"
  /\ init "eth0" (PyPath.of_string "out") "JoHn" false
     = init "eth0" (PyPath.of_string "out") "john" false.
Proof.
  apply (proj2 (init_mode_case "eth0" (PyPath.of_string "out") "JoHn" false
                  (mkRecord "alice" "EXAMPLE.COM" "deadbeef"))).
  reflexivity.
Defined.

(** ** More on the per-identity file *)

Section PathFacts.
Import PyStr.

Lemma str_length_app (s t : string) :
  String.length (s +:+ t) = (String.length s + String.length t)%nat.
Proof. induction s as [|a s IH]; [done|]. rewrite str_app_cons. simpl. by rewrite IH. Qed.

Lemma str_app_inv_tail (s s' t : string) : s +:+ t = s' +:+ t -> s = s'.
Proof.
  revert s'. induction s as [|a s IH]; intros [|a' s'] H; [done| | |].
  - apply (f_equal String.length) in H.
    rewrite str_app_nil_l, str_app_cons in H. simpl in H.
    rewrite str_length_app in H. lia.
  - apply (f_equal String.length) in H.
    rewrite str_app_nil_l, str_app_cons in H. simpl in H.
    rewrite str_length_app in H. lia.
  - rewrite !str_app_cons in H. injection H as -> H. f_equal. by apply IH.
Qed.


Lemma prefixes_take {A} (l : list A) k :
  (0 < k <= length l)%nat -> take k l ∈ PyPath.prefixes l.
Proof.
  revert k. induction l as [|x l IH]; intros k Hk; simpl in *; [lia|].
  destruct k as [|[|k]]; [lia|by left|]. right.
  change (take (S (S k)) (x :: l)) with (x :: take (S k) l).
  apply list_elem_of_In, in_map, list_elem_of_In, IH. lia.
Qed.

End PathFacts.

(** X4: when neither the principal nor the realm holds a [/], the
    per-identity file is the file [<principal>_<realm>.txt] directly in the
    output directory. *)
Theorem user_file_in_out_dir (dir : Path) (u d : string) :
  PyStr.has_char "/" u = false -> PyStr.has_char "/" d = false ->
  user_file dir u d
    = mkPath (root dir) (parts dir ++ [u +:+ "_" +:+ d +:+ ".txt"]).
Proof. apply user_file_plain. Qed.

Lemma user_file_in_out_dir_witness :
  user_file (PyPath.of_string "/var/captures") "alice" "EXAMPLE.COM"
    = mkPath "/" ["var"; "captures"; "alice_EXAMPLE.COM.txt"].
Proof.
  apply (user_file_in_out_dir (PyPath.of_string "/var/captures")
           "alice" "EXAMPLE.COM"); reflexivity.
Defined.


(** X6: in one output directory, two identities without [/] whose
    principals hold no [_] have the same per-identity file only when they
    are the same identity. *)
Theorem user_file_injective (dir : Path) (u d u' d' : string) :
  PyStr.has_char "/" u = false -> PyStr.has_char "/" d = false ->
  PyStr.has_char "/" u' = false -> PyStr.has_char "/" d' = false ->
  PyStr.has_char "_" u = false -> PyStr.has_char "_" u' = false ->
  user_file dir u d = user_file dir u' d' ->
  u = u' /\ d = d'.
Proof.
  intros Hu Hd Hu' Hd' Hs Hs'.
  rewrite !user_file_plain by done. intros [= H%app_inv_head].
  injection H as H.
  pose proof (f_equal (PyStr.split "_") H) as Hsp.
  change ("_" +:+ d +:+ ".txt") with (String "_" (d +:+ ".txt")) in Hsp.
  change ("_" +:+ d' +:+ ".txt") with (String "_" (d' +:+ ".txt")) in Hsp.
  rewrite !split_app in Hsp by done. injection Hsp as -> _.
  split; [done|].
  apply String.app_inj in H. injection H as H.
  rewrite !str_app_nil_l in H. by apply str_app_inv_tail in H.
Qed.

Lemma user_file_injective_witness : "alice" = "alice" /\ "A_B" = "A_B".
Proof.
  apply (user_file_injective (PyPath.of_string "out") "alice" "A_B"
           "alice" "A_B"); reflexivity.
Defined.

(** ** More on the output directory and the loop *)

Section MkdirFacts.
Variable io_error : World -> Path -> bool.

(** What [mkdir_each] can do: it makes directories of its list only, and
    raises nothing but the refusal of the file system. *)
Lemma mkdir_each_frame ps w :
  files (mkdir_each io_error ps w).2 = files w
  /\ console (mkdir_each io_error ps w).2 = console w
  /\ procs (mkdir_each io_error ps w).2 = procs w
  /\ dirs w ⊆ dirs (mkdir_each io_error ps w).2
  /\ (forall q, q ∈ dirs (mkdir_each io_error ps w).2 -> q ∈ dirs w \/ q ∈ ps)
  /\ ((mkdir_each io_error ps w).1 = Ok tt
      \/ (mkdir_each io_error ps w).1 = Raise OSError).
Proof.
  revert w. induction ps as [|p ps IH]; intros w; simpl.
  - repeat split; auto.
  - destruct (bool_decide (p ∈ dirs w)).
    + destruct (IH w) as (Hf & Hc & Hp & Hd & Hq & Hr).
      repeat (split; [done|]). split; [|done].
      intros q [?|?]%Hq; [by left|right; by right].
    + destruct (io_error w p).
      * simpl. repeat split; auto.
      * destruct (IH (set_dirs w (dirs w ∪ {[p]})))
          as (Hf & Hc & Hp & Hd & Hq & Hr).
        cbn [files console procs dirs set_dirs] in *.
        repeat (split; [done|]).
        split; [etrans; [apply union_subseteq_l|exact Hd]|]. split; [|done].
        intros q Hq'. apply Hq in Hq' as [Hq'|?]; [|right; by right].
        apply elem_of_union in Hq' as [?|Hs]; [by left|].
        apply elem_of_singleton in Hs as ->. right; by left.
Qed.

(** Directories that are there are left alone, whatever the oracle says. *)
Lemma mkdir_each_present ps w :
  (forall q, q ∈ ps -> q ∈ dirs w) -> mkdir_each io_error ps w = (Ok tt, w).
Proof.
  induction ps as [|p ps IH]; intros H; simpl; [done|].
  rewrite bool_decide_eq_true_2 by (apply H; by left).
  apply IH. intros q Hq. apply H. by right.
Qed.

Lemma mkdir_each_ok ps w :
  (forall w' q, q ∈ ps -> io_error w' q = false) ->
  exists w', mkdir_each io_error ps w = (Ok tt, w')
    /\ forall q, q ∈ ps -> q ∈ dirs w'.
Proof.
  intros Hio. revert w. induction ps as [|p ps IH]; intros w; simpl.
  - exists w. split; [done|]. by intros q ?%elem_of_nil.
  - assert (Hps : forall w' q, q ∈ ps -> io_error w' q = false)
      by (intros w' q Hq; apply Hio; by right).
    destruct (bool_decide (p ∈ dirs w)) eqn:Ep.
    + destruct (IH Hps w) as (w' & E & Hin). exists w'. split; [done|].
      intros q [->|?]%elem_of_cons; [|by apply Hin].
      apply bool_decide_eq_true in Ep.
      destruct (mkdir_each_frame ps w) as (_ & _ & _ & Hd & _).
      rewrite E in Hd. by apply Hd.
    + rewrite (Hio w p) by by left.
      destruct (IH Hps (set_dirs w (dirs w ∪ {[p]}))) as (w' & E & Hin).
      exists w'. split; [done|].
      intros q [->|?]%elem_of_cons; [|by apply Hin].
      destruct (mkdir_each_frame ps (set_dirs w (dirs w ∪ {[p]})))
        as (_ & _ & _ & Hd & _).
      rewrite E in Hd. apply Hd. cbn [dirs set_dirs].
      apply elem_of_union_r. by apply elem_of_singleton.
Qed.

Lemma ensure_output_dir_raises path w e w1 :
  ensure_output_dir io_error path false w = (Raise e, w1) ->
  e = OSError /\ console w1 = console w /\ files w1 = files w
  /\ procs w1 = procs w /\ dirs w ⊆ dirs w1
  /\ forall q, q ∈ dirs w1 -> q ∈ dirs w \/ q ∈ PyPath.self_and_parents path.
Proof.
  unfold ensure_output_dir, mkdir_parents. cbn [negb]. unfold_M.
  destruct (mkdir_each_frame (PyPath.self_and_parents path) w)
    as (Hf & Hc & Hp & Hd & Hq & Hr).
  destruct (mkdir_each io_error (PyPath.self_and_parents path) w)
    as [[[]|e'] w'] eqn:E; [done|].
  intros [= -> ->]. cbn [fst snd] in *.
  destruct Hr as [?|[= ->]]; done.
Qed.

End MkdirFacts.

(** X7: with persistence on and no directory refused, [ensure_output_dir]
    creates the output directory and every one of its ancestors, keeps the
    directories there are, touches no file and announces the directory;
    calling it again adds nothing.  When it raises, nothing has been
    printed, no file is touched, and nothing but ancestors of the output
    directory has been created. *)
Theorem ensure_output_dir_creates (io_error : World -> Path -> bool)
    (path : Path) (w : World) :
  ((forall w' q, q ∈ PyPath.self_and_parents path -> io_error w' q = false) ->
   exists w',
     ensure_output_dir io_error path false w = (Ok tt, w')
     /\ (forall k, (0 < k <= length (parts path))%nat ->
                   mkPath (root path) (take k (parts path)) ∈ dirs w')
     /\ dirs w ⊆ dirs w'
     /\ files w' = files w
     /\ console w' = console w ++
          ["[+] Using output directory: " +:+ PyPath.to_string path]
     /\ dirs (ensure_output_dir io_error path false w').2 = dirs w')
  /\ (forall e w1,
        ensure_output_dir io_error path false w = (Raise e, w1) ->
        console w1 = console w /\ files w1 = files w
        /\ dirs w ⊆ dirs w1
        /\ forall q, q ∈ dirs w1 ->
             q ∈ dirs w \/ q ∈ PyPath.self_and_parents path).
Proof.
  split.
  - intros Hio.
    destruct (mkdir_each_ok io_error (PyPath.self_and_parents path) w Hio)
      as (w1 & E & Hin).
    destruct (mkdir_each_frame io_error (PyPath.self_and_parents path) w)
      as (Hf & Hc & _ & Hd & _).
    rewrite E in Hf, Hc, Hd. cbn [snd] in Hf, Hc, Hd.
    unfold ensure_output_dir, mkdir_parents. cbn [negb]. unfold_M.
    rewrite E. unfold print. eexists. split; [reflexivity|].
    cbn [dirs files console set_console].
    split; [|split; [done|split; [done|split; [by rewrite Hc|]]]].
    + intros k Hk. apply Hin. unfold PyPath.self_and_parents.
      apply list_elem_of_In, in_map, list_elem_of_In. by apply prefixes_take.
    + rewrite mkdir_each_present; [done|]. exact Hin.
  - intros e w1 H.
    destruct (ensure_output_dir_raises io_error path w e w1 H)
      as (? & ? & ? & _ & ? & ?). done.
Qed.

Lemma ensure_output_dir_creates_witness :
  (exists w',
     ensure_output_dir Demo.no_error (PyPath.of_string "a/b") false
                       DemoSession.empty_world = (Ok tt, w')
     /\ dirs w' = {[ mkPath "" ["a"]; mkPath "" ["a"; "b"] ]})
  /\ exists w1,
       ensure_output_dir (Demo.refuse (PyPath.of_string "a/b"))
         (PyPath.of_string "a/b") false DemoSession.empty_world
         = (Raise OSError, w1)
       /\ console w1 = console DemoSession.empty_world
       /\ dirs w1 = {[ mkPath "" ["a"] ]}.
Proof.
  split.
  - destruct (proj1 (ensure_output_dir_creates Demo.no_error
                       (PyPath.of_string "a/b") DemoSession.empty_world)
                (fun _ _ _ => eq_refl))
      as (w' & Hrun & _).
    exists w'. split; [exact Hrun|].
    injection Hrun as <-. vm_compute. reflexivity.
  - eexists.
    assert (Hrun : ensure_output_dir (Demo.refuse (PyPath.of_string "a/b"))
                     (PyPath.of_string "a/b") false DemoSession.empty_world
                   = (Raise OSError, _)) by (vm_compute; reflexivity).
    destruct (proj2 (ensure_output_dir_creates
                       (Demo.refuse (PyPath.of_string "a/b"))
                       (PyPath.of_string "a/b") DemoSession.empty_world)
                _ _ Hrun) as (Hc & _).
    split; [exact Hrun|]. split; [exact Hc|]. vm_compute. reflexivity.
Defined.

Section LoopInvariant.
Variable clock : nat -> string.
Variable io_error : World -> Path -> bool.

(** What the signal handler does to the listener. *)
Lemma handle_sigint_ok l w :
  exists w', handle_sigint l w = (Ok (set_stop l true), w')
    /\ files w' = files w /\ dirs w' = dirs w /\ ticks w' = ticks w
    /\ console w' = console w ++ [stop_notice].
Proof.
  unfold handle_sigint. unfold_M. unfold print.
  destruct (shutdown_frame l (set_console w (console w ++ [LF +:+ "[!] Stopping listener..."])))
    as (w' & -> & Hf & Hd & Hc & Ht). eauto 10.
Qed.

(** The loop gives back the listener it was given, stopped or not. *)
Lemma run_loop_listener evs l w l' w' :
  run_loop clock io_error evs l w = (Ok l', w') ->
  l' = l \/ l' = set_stop l true.
Proof.
  revert l w. induction evs as [|[s|] evs IH]; intros l w; simpl.
  - intros [= <- _]. by left.
  - destruct (stop l); [intros [= <- _]; by left|]. unfold_M.
    destruct (process_line clock io_error l s w) as [[[]|e] w1]; [|done].
    apply IH.
  - unfold_M. destruct (handle_sigint_ok l w) as (w1 & -> & _).
    intros [->| ->]%IH; by right.
Qed.

(** The stop flag after the loop: set before, or a signal arrived. *)
Lemma run_loop_stop evs l w l' w' :
  run_loop clock io_error evs l w = (Ok l', w') ->
  stop l' = true <-> stop l = true \/ Interrupt ∈ evs.
Proof.
  revert l w. induction evs as [|[s|] evs IH]; intros l w; simpl.
  - intros [= <- _]. split; [by left|]. intros [?|?%elem_of_nil]; done.
  - destruct (stop l) eqn:Hs.
    { intros [= <- _]. rewrite Hs. split; [by left|done]. }
    unfold_M.
    destruct (process_line clock io_error l s w) as [[[]|e] w1]; [|done].
    intros H%IH. rewrite H, Hs. split.
    + intros [?|?]; [done|]. right. by right.
    + intros [?|[?|?]%elem_of_cons]; [done|done|by right].
  - unfold_M. destruct (handle_sigint_ok l w) as (w1 & -> & _).
    intros H%IH. rewrite H. split; [intros _; right; by left|by left].
Qed.

(** An exception leaves the loop before any signal has arrived. *)
Lemma run_loop_raise_unstopped evs l w e w' :
  run_loop clock io_error evs l w = (Raise e, w') ->
  stop l = false /\ e = OSError.
Proof.
  revert l w. induction evs as [|[s|] evs IH]; intros l w; simpl; [done| |].
  - destruct (stop l) eqn:Hs; [done|]. unfold_M.
    destruct (process_line clock io_error l s w) as [[[]|e1] w1] eqn:Hb.
    + intros [_ ->]%IH. done.
    + intros [= <- _]. split; [done|].
      rewrite process_line_eq in Hb. destruct (parse_asreq_line s); [|done].
      cbv zeta in Hb. destruct (no_files l); [done|].
      destruct (io_error _ _); [by injection Hb as <- _|].
      destruct (io_error _ _); [by injection Hb as <- _|done].
  - unfold_M. destruct (handle_sigint_ok l w) as (w1 & -> & _).
    intros [H _]%IH. done.
Qed.

Section Invariant.
Variable R : World -> World -> Prop.
Variable I : TsharkListener -> Prop.
Variable L : string -> Prop.
Hypothesis R_refl : forall w, R w w.
Hypothesis R_trans : forall a b c, R a b -> R b c -> R a c.
Hypothesis R_ext : forall w a b,
  R w a -> files b = files a -> dirs b = dirs a -> R w b.
Hypothesis I_stop : forall l, I l -> I (set_stop l true).
Hypothesis R_body : forall l s w,
  I l -> L s -> R w (process_line clock io_error l s w).2.

Lemma run_loop_invariant evs l w :
  I l -> (forall s, Line s ∈ evs -> L s) ->
  R w (run_loop clock io_error evs l w).2.
Proof.
  revert l w. induction evs as [|[s|] evs IH]; intros l w Hl Hevs; simpl.
  - apply R_refl.
  - destruct (stop l); [apply R_refl|]. unfold_M.
    pose proof (R_body l s w Hl (Hevs s ltac:(by left))) as Hb.
    destruct (process_line clock io_error l s w) as [[[]|e] w1]; [|exact Hb].
    eapply R_trans; [exact Hb|]. apply IH; [done|].
    intros s' Hs'. apply Hevs. by right.
  - unfold_M. destruct (handle_sigint_ok l w) as (w1 & -> & Hf & Hd & _).
    eapply R_trans; [apply (R_ext w w w1); [apply R_refl|done..]|].
    apply IH; [by apply I_stop|]. intros s' Hs'. apply Hevs. by right.
Qed.

Lemma run_invariant evs l w :
  I l -> (forall s, Line s ∈ evs -> L s) ->
  R w (run clock io_error evs l w).2.
Proof.
  intros Hl Hevs. pose proof (run_loop_invariant evs l w Hl Hevs) as Hloop.
  destruct (proc l) as [p|] eqn:Hp.
  - destruct (run_loop clock io_error evs l w) as [[l1|e] w1] eqn:E.
    + destruct (run_after_loop clock io_error _ _ _ _ _ _ Hp E)
        as (l' & w' & -> & Hf & Hd & _).
      by apply (R_ext w w1 w').
    + by rewrite (run_raises clock io_error _ _ _ _ _ _ Hp E).
  - unfold run. rewrite Hp. apply R_refl.
Qed.

End Invariant.

Lemma append_only_refl w : append_only w w.
Proof. intros q text H. exists "". by rewrite str_app_nil_r. Qed.

Lemma append_only_trans a b c :
  append_only a b -> append_only b c -> append_only a c.
Proof.
  intros Hab Hbc q text H. destruct (Hab q text H) as (m1 & H1).
  destruct (Hbc q _ H1) as (m2 & H2). exists (m1 +:+ m2).
  by rewrite H2, str_app_assoc.
Qed.

Lemma append_only_appended w p text : append_only w (appended w p text).
Proof.
  intros q t H. simpl. destruct (decide (p = q)) as [->|Hne].
  - rewrite lookup_insert_eq, H. by eexists.
  - rewrite lookup_insert_ne by done. exists "". by rewrite str_app_nil_r.
Qed.

Lemma append_only_ext w a b :
  append_only w a -> files b = files a -> append_only w b.
Proof. intros H E q text Hq. rewrite E. by apply H. Qed.

Lemma process_line_append_only l s w :
  append_only w (process_line clock io_error l s w).2
  /\ dirs (process_line clock io_error l s w).2 = dirs w.
Proof.
  rewrite process_line_eq. destruct (parse_asreq_line s) as [r|];
    [|split; [apply append_only_refl|done]].
  cbv zeta. assert (H0 : append_only w (reported clock l w r))
    by (apply (append_only_ext w w); [apply append_only_refl|done]).
  destruct (no_files l); [done|].
  destruct (io_error _ _); [done|].
  assert (H1 := append_only_appended (reported clock l w r)
    (user_file (out_dir l) (principal_name r) (realm r))
    (hash_of (format l) r +:+ LF)).
  destruct (io_error _ _); [done|]. split; [|done].
  eapply append_only_trans; [exact H1|]. apply append_only_appended.
Qed.

Lemma process_line_other_file l s w q :
  q <> all_hashes_file l ->
  (forall r, parse_asreq_line s = Some r ->
             q <> user_file (out_dir l) (principal_name r) (realm r)) ->
  files (process_line clock io_error l s w).2 !! q = files w !! q.
Proof.
  intros Ha Hu. rewrite process_line_eq.
  destruct (parse_asreq_line s) as [r|]; [|done]. cbv zeta.
  specialize (Hu r eq_refl).
  destruct (no_files l); [done|].
  destruct (io_error _ _); [done|].
  destruct (io_error _ _); simpl.
  - by rewrite lookup_insert_ne.
  - by rewrite !lookup_insert_ne.
Qed.

Lemma run_append_only_aux evs l w :
  append_only w (run clock io_error evs l w).2
  /\ dirs (run clock io_error evs l w).2 = dirs w.
Proof.
  apply (run_invariant
    (fun a b => append_only a b /\ dirs b = dirs a)
    (fun _ => True) (fun _ => True)); try done.
  - intros a. split; [apply append_only_refl|done].
  - intros a b c [H1 H2] [H3 H4]. split; [by eapply append_only_trans|congruence].
  - intros a b c [H1 H2] Hf Hd. split; [by eapply append_only_ext|congruence].
  - intros l0 s w0 _ _. apply process_line_append_only.
Qed.

Lemma run_other_file_aux evs l w q :
  q <> all_hashes_file l ->
  (forall s r, Line s ∈ evs -> parse_asreq_line s = Some r ->
               q <> user_file (out_dir l) (principal_name r) (realm r)) ->
  files (run clock io_error evs l w).2 !! q = files w !! q.
Proof.
  intros Ha Hu.
  apply (run_invariant
    (fun a b => files b !! q = files a !! q)
    (fun l0 => out_dir l0 = out_dir l /\ all_hashes_file l0 = all_hashes_file l)
    (fun s => forall r, parse_asreq_line s = Some r ->
              q <> user_file (out_dir l) (principal_name r) (realm r))).
  - done.
  - intros a b c H1 H2. congruence.
  - intros a b c H1 Hf _. congruence.
  - intros l0 [H1 H2]. done.
  - intros l0 s w0 [H1 H2] Hs. apply process_line_other_file.
    + by rewrite H2.
    + rewrite H1. exact Hs.
  - done.
  - intros s Hs r. by apply Hu.
Qed.

(** A stopped loop handles nothing. *)
Lemma run_loop_stopped evs l w :
  stop l = true ->
  exists w' k,
    run_loop clock io_error evs l w = (Ok l, w')
    /\ files w' = files w /\ dirs w' = dirs w /\ ticks w' = ticks w
    /\ console w' = console w ++ replicate k stop_notice.
Proof.
  intros Hs. revert w. induction evs as [|[s|] evs IH]; intros w; simpl.
  - exists w, 0%nat. simpl. by rewrite app_nil_r.
  - rewrite Hs. exists w, 0%nat. simpl. by rewrite app_nil_r.
  - unfold_M. destruct (handle_sigint_ok l w) as (w1 & -> & Hf & Hd & Ht & Hc).
    assert (El : set_stop l true = l) by (destruct l; simpl in *; by subst).
    rewrite El. destruct (IH w1) as (w' & k & -> & Hf' & Hd' & Ht' & Hc').
    exists w', (S k). split; [done|]. repeat split; try congruence.
    rewrite Hc', Hc. simpl. by rewrite <- List.app_assoc.
Qed.

End LoopInvariant.

Section RunFacts.
Variable clock : nat -> string.
Variable io_error : World -> Path -> bool.

(** The drain after the loop, on a handle not polled before: the child has
    been sent a SIGTERM, or had exited and is reaped. *)
Lemma run_drain_aux evs l w l' w' p :
  run clock io_error evs l w = (Ok l', w') ->
  proc l = Some p -> returncode p = None ->
  exists p', proc l' = Some p' /\ pid p' = pid p
    /\ signalled_or_gone (pid p) w'
    /\ (forall c, returncode p' = Some c -> procs w' !! pid p = None).
Proof.
  intros Hrun Hp Hrc. unfold run in Hrun. rewrite Hp in Hrun.
  unfold_M.
  destruct (run_loop clock io_error evs l w) as [[l1|e] w1] eqn:Hloop; [|done].
  assert (Hp1 : proc l1 = Some p).
  { apply run_loop_listener in Hloop as [->| ->]; done. }
  rewrite Hp1 in Hrun. unfold poll at 1 in Hrun. rewrite Hrc in Hrun.
  destruct (procs w1 !! pid p) as [[g [| |c]]|] eqn:E; cbn in Hrun.
  - rewrite Hrc in Hrun. unfold terminate, poll in Hrun. unfold_M.
    rewrite Hrc, E in Hrun. cbn in Hrun. rewrite Hrc in Hrun.
    unfold kill in Hrun. rewrite E in Hrun. cbn in Hrun.
    injection Hrun as <- <-. exists p. split; [done|]. split; [done|].
    split; [|by rewrite Hrc].
    intros q. cbn [procs set_procs]. rewrite lookup_insert_eq.
    by intros [= <-].
  - rewrite Hrc in Hrun. unfold terminate, poll in Hrun. unfold_M.
    rewrite Hrc, E in Hrun. cbn in Hrun. rewrite Hrc in Hrun.
    unfold kill in Hrun. rewrite E in Hrun. cbn in Hrun.
    injection Hrun as <- <-. exists p. split; [done|]. split; [done|].
    split; [|by rewrite Hrc].
    intros q. cbn [procs set_procs]. rewrite lookup_insert_eq.
    by intros [= <-].
  - injection Hrun as <- <-. eexists. split; [done|]. split; [done|].
    split.
    + intros q. cbn [procs set_procs]. by rewrite lookup_delete_eq.
    + intros _ _. cbn [procs set_procs]. by rewrite lookup_delete_eq.
  - injection Hrun as <- <-. eexists. split; [done|]. split; [done|].
    split; [intros q; by rewrite E|done].
Qed.

Lemma run_keeps_listener_aux evs l l' w w' :
  run clock io_error evs l w = (Ok l', w') ->
  interface l' = interface l /\ out_dir l' = out_dir l
  /\ no_files l' = no_files l /\ format l' = format l
  /\ all_hashes_file l' = all_hashes_file l
  /\ (stop l' = true <-> stop l = true \/ Interrupt ∈ evs)
  /\ exists p p', proc l = Some p /\ proc l' = Some p' /\ pid p' = pid p.
Proof.
  intros Hrun. destruct (proc l) as [p|] eqn:Hp;
    [|unfold run in Hrun; by rewrite Hp in Hrun].
  destruct (run_loop clock io_error evs l w) as [[l1|e] w1] eqn:Hloop;
    [|by rewrite (run_raises clock io_error _ _ _ _ _ _ Hp Hloop) in Hrun].
  pose proof (run_loop_stop clock io_error _ _ _ _ _ Hloop) as Hstop.
  assert (Hp1 : proc l1 = Some p)
    by (apply run_loop_listener in Hloop as [->| ->]; done).
  assert (Hcfg : interface l1 = interface l /\ out_dir l1 = out_dir l
    /\ no_files l1 = no_files l /\ format l1 = format l
    /\ all_hashes_file l1 = all_hashes_file l)
    by (apply run_loop_listener in Hloop as [->| ->]; done).
  unfold run in Hrun. rewrite Hp in Hrun. unfold_M. rewrite Hloop, Hp1 in Hrun.
  destruct (poll_frame p w1) as (p1 & w2 & Hpoll & Hpid & _).
  rewrite Hpoll in Hrun.
  assert (exists p2, proc l' = Some p2 /\ pid p2 = pid p
          /\ l' = set_proc l1 (Some p2)) as (p2 & Hp2 & Hpid2 & ->).
  { destruct (returncode p1) eqn:Hrc; [injection Hrun as <- _; eauto|].
    unfold terminate in Hrun. unfold_M.
    destruct (poll_frame p1 w2) as (p3 & w3 & Hpoll3 & Hpid3 & _).
    rewrite Hpoll3 in Hrun.
    destruct (returncode p3).
    - injection Hrun as <- _. exists p3. split; [done|]. split; [congruence|done].
    - destruct (kill (pid p3) w3) as [[[]|e] w4];
        injection Hrun as <- _; exists p3; (split; [done|]); (split; [congruence|done]). }
  destruct Hcfg as (? & ? & ? & ? & ?).
  repeat (split; [done|]). eauto.
Qed.


End RunFacts.

(** X8: whatever arrives and whatever fails, [run] removes and truncates no
    file (every file keeps its text as the beginning of its new text) and
    creates no directory. *)
Theorem run_append_only (clock : nat -> string)
    (io_error : World -> Path -> bool) (evs : list event)
    (l : TsharkListener) (w : World) :
  append_only w (run clock io_error evs l w).2
  /\ dirs (run clock io_error evs l w).2 = dirs w.
Proof. apply run_append_only_aux. Qed.

(** X9: in the output directory, [run] changes no entry other than the
    aggregate file and the files [<principal>_<realm>.txt] of the records on
    its input, when the principals and realms of these records hold no
    [/]. *)
Theorem run_other_files_untouched (clock : nat -> string)
    (io_error : World -> Path -> bool) (evs : list event)
    (l : TsharkListener) (w : World) (name : string) :
  PyStr.has_char "/" name = false ->
  PyStr.has_char "/" (format l) = false ->
  all_hashes_file l = out_dir l // ("all_hashes_" +:+ format l +:+ ".txt") ->
  name <> "all_hashes_" +:+ format l +:+ ".txt" ->
  (forall s r, Line s ∈ evs -> parse_asreq_line s = Some r ->
     PyStr.has_char "/" (principal_name r) = false
     /\ PyStr.has_char "/" (realm r) = false
     /\ name <> principal_name r +:+ "_" +:+ realm r +:+ ".txt") ->
  files (run clock io_error evs l w).2 !! (out_dir l // name)
    = files w !! (out_dir l // name).
Proof.
  intros Hname Hfmt Hagg Hne Hrecs.
  destruct (aggregate_name_plain _ Hfmt) as (Ha1 & Ha2 & Ha3).
  apply run_other_file_aux.
  - rewrite Hagg. by apply truediv_plain_ne.
  - intros s r Hs Hr. destruct (Hrecs s r Hs Hr) as (Hu & Hd & Hn).
    destruct (user_name_plain _ _ Hu Hd) as (Hu1 & Hu2 & Hu3).
    unfold user_file. by apply truediv_plain_ne.
Qed.

Lemma run_other_files_untouched_witness :
  files (run Demo.clock Demo.no_error [Line Demo.alice; Interrupt]
             (Demo.listener "hashcat" false) Demo.world0).2
    !! (out_dir (Demo.listener "hashcat" false) // "bob_EXAMPLE.COM.txt")
  = files Demo.world0
    !! (out_dir (Demo.listener "hashcat" false) // "bob_EXAMPLE.COM.txt").
Proof.
  apply (run_other_files_untouched Demo.clock Demo.no_error
           [Line Demo.alice; Interrupt] (Demo.listener "hashcat" false)
           Demo.world0 "bob_EXAMPLE.COM.txt").
  - reflexivity.
  - reflexivity.
  - reflexivity.
  - vm_compute. discriminate.
  - intros s r Hs Hr.
    apply elem_of_cons in Hs as [Hs|Hs].
    + injection Hs as ->. vm_compute in Hr. injection Hr as <-.
      split; [reflexivity|]. split; [reflexivity|]. vm_compute. discriminate.
    + apply elem_of_cons in Hs as [Hs|Hs]; [discriminate|].
      by apply elem_of_nil in Hs.
Defined.

(** X10: a listener whose stop flag is set handles no line: [run] ends
    well, with files, directories and clock as they were and nothing new on
    the console but notices of the signal handler. *)
Theorem run_stopped_idle (clock : nat -> string)
    (io_error : World -> Path -> bool) (evs : list event)
    (l : TsharkListener) (w : World) (p : Popen) :
  stop l = true -> proc l = Some p ->
  exists l' w' k,
    run clock io_error evs l w = (Ok l', w')
    /\ files w' = files w /\ dirs w' = dirs w /\ ticks w' = ticks w
    /\ console w' = console w ++ replicate k stop_notice.
Proof.
  intros Hs Hp.
  destruct (run_loop_stopped clock io_error evs l w Hs)
    as (w1 & k & Hloop & Hf & Hd & Ht & Hc).
  destruct (run_after_loop clock io_error _ _ _ _ _ _ Hp Hloop)
    as (l' & w' & Hrun & Hf' & Hd' & Hc' & Ht' & _).
  exists l', w', k. split; [exact Hrun|]. repeat split; congruence.
Qed.

Lemma run_stopped_idle_witness :
  exists l' w' k,
    run Demo.clock Demo.no_error [Line Demo.alice; Line Demo.bob]
        (set_stop (Demo.listener "hashcat" false) true) Demo.world0 = (Ok l', w')
    /\ files w' = files Demo.world0 /\ dirs w' = dirs Demo.world0
    /\ ticks w' = ticks Demo.world0
    /\ console w' = console Demo.world0 ++ replicate k stop_notice.
Proof.
  apply (run_stopped_idle Demo.clock Demo.no_error [Line Demo.alice; Line Demo.bob]
           (set_stop (Demo.listener "hashcat" false) true) Demo.world0
           (mkPopen 4242 None)); reflexivity.
Defined.

(** X11: a [run] that ends well gives back the listener with its
    configuration and the pid of its child as they were; its stop flag is
    set exactly when it was set before or a signal arrived. *)
Theorem run_keeps_listener (clock : nat -> string)
    (io_error : World -> Path -> bool) (evs : list event)
    (l l' : TsharkListener) (w w' : World) :
  run clock io_error evs l w = (Ok l', w') ->
  interface l' = interface l /\ out_dir l' = out_dir l
  /\ no_files l' = no_files l /\ format l' = format l
  /\ all_hashes_file l' = all_hashes_file l
  /\ (stop l' = true <-> stop l = true \/ Interrupt ∈ evs)
  /\ exists p p', proc l = Some p /\ proc l' = Some p' /\ pid p' = pid p.
Proof. apply run_keeps_listener_aux. Qed.

Lemma run_keeps_listener_witness :
  exists l' w',
    run Demo.clock Demo.no_error [Line Demo.alice; Interrupt; Line Demo.bob]
        (Demo.listener "hashcat" true) Demo.world0 = (Ok l', w')
    /\ format l' = "hashcat"
    /\ (stop l' = true <->
        stop (Demo.listener "hashcat" true) = true
        \/ Interrupt ∈ [Line Demo.alice; Interrupt; Line Demo.bob]).
Proof.
  do 2 eexists. split; [vm_compute; reflexivity|].
  match goal with |- format ?l' = _ /\ _ =>
    destruct (run_keeps_listener Demo.clock Demo.no_error
                [Line Demo.alice; Interrupt; Line Demo.bob]
                (Demo.listener "hashcat" true) l' Demo.world0 _
                ltac:(vm_compute; reflexivity))
      as (_ & _ & _ & Hfmt & _ & Hstop & _)
  end.
  split; [exact Hfmt|exact Hstop].
Defined.

(** X13: after a [run] that ends well, on a handle that had not been
    polled, the decoder has been sent a SIGTERM by the drain, or it had
    exited and has been reaped; a return code on the handle means it is gone
    from the process table.  Nothing waits for the decoder: whether it has
    ended is not said. *)
Theorem run_drains_child (clock : nat -> string)
    (io_error : World -> Path -> bool) (evs : list event)
    (l l' : TsharkListener) (w w' : World) (p : Popen) :
  run clock io_error evs l w = (Ok l', w') ->
  proc l = Some p -> returncode p = None ->
  exists p', proc l' = Some p' /\ pid p' = pid p
    /\ signalled_or_gone (pid p) w'
    /\ (forall c, returncode p' = Some c -> procs w' !! pid p = None).
Proof. apply run_drain_aux. Qed.

Lemma run_drains_child_witness :
  exists l' w' p',
    run Demo.clock Demo.no_error [Line Demo.alice]
        (Demo.listener "hashcat" true) Demo.world0 = (Ok l', w')
    /\ proc l' = Some p' /\ pid p' = 4242
    /\ signalled_or_gone 4242 w'.
Proof.
  do 2 eexists.
  assert (Hrun : run Demo.clock Demo.no_error [Line Demo.alice]
                   (Demo.listener "hashcat" true) Demo.world0
                 = (Ok _, _)) by (vm_compute; reflexivity).
  destruct (run_drains_child Demo.clock Demo.no_error [Line Demo.alice]
              (Demo.listener "hashcat" true) _ Demo.world0 _
              (mkPopen 4242 None) Hrun eq_refl eq_refl)
    as (p' & Hp & Hpid & Hnr & _).
  exists p'. split; [exact Hrun|]. split; [exact Hp|]. split; [exact Hpid|exact Hnr].
Defined.

(** ** Facts about the capture part of [main] *)

Section SessionFacts.
Variable clock : nat -> string.
Variable io_error : World -> Path -> bool.
Variable spawn : World -> list string -> option Z.

Lemma start_eq l w :
  start spawn l w =
    match spawn w (tshark_args (interface l)) with
    | Some k =>
        (Ok (set_proc l (Some (mkPopen k None))),
         set_console
           (set_procs w (<[k := mkProcess k Running]> (procs w)))
           (console w ++ ["[+] Tshark started (PID: " +:+ str_of_int k +:+ ")"]))
    | None => (Raise OSError, w)
    end.
Proof.
  unfold start, popen. unfold_M.
  destruct (spawn w (tshark_args (interface l))); reflexivity.
Qed.

(** After [shutdown] the child of the listener has been sent a SIGTERM, or
    has exited, or is gone. *)
Lemma shutdown_signalled_or_gone l w p :
  proc l = Some p -> signalled_or_gone (pid p) (shutdown l w).2.
Proof.
  intros Hp. rewrite shutdown_eq, Hp. cbn [snd].
  destruct (procs w !! pid p) as [pr|] eqn:E; intros q.
  - cbn [procs set_procs]. rewrite lookup_fmap, E. intros [= <-].
    by apply signal_group_stops.
  - by rewrite E.
Qed.

(** The closing steps of the session. *)
Lemma closing_eq dir l w :
  (l'' ← shutdown l;
   print ("[+] Listener stopped. Check output files in: "
          +:+ PyPath.to_string dir);;
   mret l'') w
  = (Ok (set_stop l true),
     set_console (shutdown l w).2
       (console (shutdown l w).2 ++
          ["[+] Listener stopped. Check output files in: "
           +:+ PyPath.to_string dir])).
Proof.
  unfold_M. unfold print.
  destruct (shutdown_frame l w) as (w' & E & _). by rewrite E.
Qed.

(** The session, case by case. *)
Lemma capture_session_eq evs dir l w :
  exists l0 w0 (r : outcome TsharkListener),
    capture_session clock io_error spawn evs dir l w
      = (r, set_console (shutdown l0 w0).2
              (console (shutdown l0 w0).2 ++
                 ["[+] Listener stopped. Check output files in: "
                  +:+ PyPath.to_string dir]))
    /\ match start spawn l w with
       | (Raise e, w1) => l0 = l /\ w0 = w1 /\ r = Raise e
       | (Ok l1, w1) =>
           match run clock io_error evs l1 w1 with
           | (Raise e, w2) => l0 = l1 /\ w0 = w2 /\ r = Raise e
           | (Ok l2, w2) => l0 = l2 /\ w0 = w2 /\ r = Ok (set_stop l2 true)
           end
       end.
Proof.
  unfold capture_session.
  destruct (start spawn l w) as [[l1|e] w1].
  - destruct (run clock io_error evs l1 w1) as [[l2|e] w2].
    + rewrite closing_eq. by exists l2, w2, (Ok (set_stop l2 true)).
    + rewrite closing_eq. by exists l1, w2, (Raise e).
  - rewrite closing_eq. by exists l, w1, (Raise e).
Qed.

Lemma capture_session_child evs dir l w k :
  spawn w (tshark_args (interface l)) = Some k ->
  signalled_or_gone k (capture_session clock io_error spawn evs dir l w).2
  /\ last (console (capture_session clock io_error spawn evs dir l w).2)
     = Some ("[+] Listener stopped. Check output files in: "
             +:+ PyPath.to_string dir).
Proof.
  intros Hk.
  destruct (capture_session_eq evs dir l w) as (l0 & w0 & r & -> & H).
  rewrite start_eq, Hk in H. cbn [snd]. split; [|apply last_snoc].
  assert (Hp : exists p, proc l0 = Some p /\ pid p = k).
  { destruct (run clock io_error evs _ _) as [[l2|e] w2] eqn:Hrun.
    - destruct H as (-> & _).
      apply run_keeps_listener_aux in Hrun
        as (_ & _ & _ & _ & _ & _ & p & p' & Hp & Hp' & Hpid).
      injection Hp as <-. eauto.
    - destruct H as (-> & _). eauto. }
  destruct Hp as (p & Hp & <-).
  intros q Hq. by apply (shutdown_signalled_or_gone l0 w0 p Hp q).
Qed.

Lemma capture_session_frame evs dir l w :
  no_files l = true ->
  files (capture_session clock io_error spawn evs dir l w).2 = files w
  /\ dirs (capture_session clock io_error spawn evs dir l w).2 = dirs w.
Proof.
  intros Hn.
  destruct (capture_session_eq evs dir l w) as (l0 & w0 & r & -> & H).
  cbn [snd files dirs set_console].
  destruct (shutdown_frame l0 w0) as (w' & E & Hf0 & Hd0 & _).
  rewrite E. cbn [snd]. rewrite Hf0, Hd0. clear E Hf0 Hd0 w'.
  rewrite start_eq in H.
  destruct (spawn w (tshark_args (interface l))) as [k|].
  - match type of H with context [run _ _ _ ?l1 ?w1] =>
      destruct (run_no_files clock io_error evs l1 w1 Hn) as [Hf Hd];
      destruct (run clock io_error evs l1 w1) as [[l2|e] w2]
    end; destruct H as (_ & -> & _); done.
  - by destruct H as (_ & -> & _).
Qed.

(** The steps of [main_capture] before the session: the banner. *)
Lemma main_capture_eq iface dir fmt nf evs w :
  main_capture clock io_error spawn iface dir fmt nf evs w =
    match ensure_output_dir io_error dir nf w with
    | (Ok _, w1) =>
        capture_session clock io_error spawn evs dir (init iface dir fmt nf)
          (set_console w1
             (console w1 ++
                [LF +:+ "Press Ctrl+C to stop the listener at any time" +:+ LF;
                 "=== Kerberos AS-REQ Live Listener ===";
                 if nf then "[*] No output files will be created"
                 else "[*] Output directory: " +:+ PyPath.to_string dir;
                 "[*] Hash format: " +:+ fmt;
                 "[*] Starting capture on interface: " +:+ iface;
                 "[*] Listening for Kerberos AS-REQ packets..." +:+ LF]))
    | (Raise e, w1) => (Raise e, w1)
    end.
Proof.
  unfold main_capture. unfold_M.
  destruct (ensure_output_dir io_error dir nf w) as [[[]|e] w1]; [|done].
  destruct nf; unfold print, set_console; cbn [files dirs console ticks procs];
    rewrite <- !List.app_assoc; reflexivity.
Qed.

End SessionFacts.

(** X14: at the end of the session of [main] ([start], [run], and
    [shutdown] in the [finally]) the decoder it launched has been sent a
    SIGTERM, or has exited, or is gone, whatever arrives and whether [run]
    ends well or raises; the last line on the console is the closing line.
    Nothing waits for the decoder. *)
Theorem capture_session_signals_decoder (clock : nat -> string)
    (io_error : World -> Path -> bool)
    (spawn : World -> list string -> option Z) (evs : list event)
    (dir : Path) (l : TsharkListener) (w : World) (k : Z) :
  spawn w (tshark_args (interface l)) = Some k ->
  signalled_or_gone k (capture_session clock io_error spawn evs dir l w).2
  /\ last (console (capture_session clock io_error spawn evs dir l w).2)
     = Some ("[+] Listener stopped. Check output files in: "
             +:+ PyPath.to_string dir).
Proof. apply capture_session_child. Qed.

Lemma capture_session_signals_decoder_witness :
  signalled_or_gone 4242
    (capture_session Demo.clock
       (Demo.refuse (all_hashes_file
                       (init "eth0" (PyPath.of_string "out") "hashcat" false)))
       DemoSession.spawn [Line Demo.alice; Line Demo.bob]
       (PyPath.of_string "out")
       (init "eth0" (PyPath.of_string "out") "hashcat" false)
       DemoSession.busy_world).2.
Proof.
  apply (capture_session_signals_decoder Demo.clock
           (Demo.refuse (all_hashes_file
                           (init "eth0" (PyPath.of_string "out") "hashcat" false)))
           DemoSession.spawn [Line Demo.alice; Line Demo.bob]
           (PyPath.of_string "out")
           (init "eth0" (PyPath.of_string "out") "hashcat" false)
           DemoSession.busy_world 4242).
  reflexivity.
Defined.

(** ** The processes the session leaves alone *)

Section Others.
Variable clock : nat -> string.
Variable io_error : World -> Path -> bool.
Variable k : Z.

Local Abbreviation group_step := (group_step k).

Lemma group_step_refl w : group_step w w.
Proof. intros H. split; [done|]. by intros j q _ _ Hq. Qed.

Lemma group_step_trans a b c :
  group_step a b -> group_step b c -> group_step a c.
Proof.
  intros Hab Hbc Ha. destruct (Hab Ha) as [Hb Hab'].
  destruct (Hbc Hb) as [Hc Hbc']. split; [done|].
  intros j q Hj Hq H. by apply Hbc', Hab'.
Qed.

Lemma group_step_procs w w' : procs w' = procs w -> group_step w w'.
Proof.
  intros E Hw. split.
  - intros q. rewrite E. apply Hw.
  - intros j q _ _. by rewrite E.
Qed.

Lemma group_step_shutdown l w p :
  proc l = Some p -> pid p = k -> group_step w (shutdown l w).2.
Proof.
  intros Hp Hk. rewrite shutdown_eq, Hp, Hk. cbn [snd].
  destruct (procs w !! k) as [pr|] eqn:E; [|apply group_step_refl].
  intros Hw. rewrite (Hw pr E). split.
  - intros q. cbn [procs set_procs]. rewrite lookup_fmap.
    destruct (procs w !! k) as [x|] eqn:Ex; [|done].
    intros [= <-]. rewrite pgid_signal_group. by apply Hw.
  - intros j q Hj Hq Hjq. cbn [procs set_procs]. rewrite lookup_fmap, Hjq.
    cbn. unfold signal_group, in_group. by rewrite bool_decide_eq_false_2.
Qed.

Lemma group_step_poll p w : pid p = k -> group_step w (poll p w).2.
Proof.
  intros Hk. unfold poll. destruct (returncode p); [apply group_step_refl|].
  rewrite Hk. destruct (procs w !! k) as [[g [| |c]]|] eqn:E;
    try apply group_step_refl.
  cbn [snd status]. intros Hw. split.
  - intros q. cbn [procs set_procs]. by rewrite lookup_delete_eq.
  - intros j q Hj _ Hjq. cbn [procs set_procs]. by rewrite lookup_delete_ne.
Qed.

Lemma group_step_terminate p w : pid p = k -> group_step w (terminate p w).2.
Proof.
  intros Hk. unfold terminate. unfold_M.
  pose proof (group_step_poll p w Hk) as H1.
  destruct (poll_frame p w) as (p' & w' & E & Hpid & _). rewrite E in *.
  cbn [snd] in H1. destruct (returncode p'); [exact H1|].
  eapply group_step_trans; [exact H1|]. unfold kill. rewrite Hpid, Hk.
  destruct (procs w' !! k) as [pr|] eqn:Ek; cbn [snd]; [|apply group_step_refl].
  intros Hw. split.
  - intros q. cbn [procs set_procs]. rewrite lookup_insert_eq.
    intros [= <-]. rewrite pgid_deliver_sigterm. by apply Hw.
  - intros j q Hj _ Hjq. cbn [procs set_procs]. by rewrite lookup_insert_ne.
Qed.

Lemma process_line_procs l s w :
  procs (process_line clock io_error l s w).2 = procs w.
Proof.
  rewrite process_line_eq. destruct (parse_asreq_line s); [|done]. cbv zeta.
  destruct (no_files l); [done|].
  destruct (io_error _ _); [done|]. by destruct (io_error _ _).
Qed.

Lemma group_step_run_loop evs l w p :
  proc l = Some p -> pid p = k ->
  group_step w (run_loop clock io_error evs l w).2.
Proof.
  revert l w. induction evs as [|[s|] evs IH]; intros l w Hp Hk; simpl.
  - apply group_step_refl.
  - destruct (stop l); [apply group_step_refl|]. unfold_M.
    pose proof (process_line_procs l s w) as Hb.
    destruct (process_line clock io_error l s w) as [[[]|e] w1];
      cbn [snd] in Hb; [|by apply group_step_procs].
    eapply group_step_trans; [by apply group_step_procs|]. by apply IH.
  - unfold handle_sigint. unfold_M. unfold print.
    set (w0 := set_console w _).
    pose proof (group_step_shutdown l w0 p Hp Hk) as Hsd.
    destruct (shutdown_frame l w0) as (w1 & E & _). rewrite E in *.
    cbn [snd] in Hsd.
    eapply group_step_trans; [apply (group_step_procs w w0); done|].
    eapply group_step_trans; [exact Hsd|]. by apply IH.
Qed.

Lemma group_step_run evs l w p :
  proc l = Some p -> pid p = k ->
  group_step w (run clock io_error evs l w).2.
Proof.
  intros Hp Hk. pose proof (group_step_run_loop evs l w p Hp Hk) as Hloop.
  unfold run. rewrite Hp. unfold_M.
  destruct (run_loop clock io_error evs l w) as [[l1|e] w1] eqn:E;
    [|exact Hloop].
  cbn [snd] in Hloop.
  assert (Hp1 : proc l1 = Some p)
    by (apply run_loop_listener in E as [->| ->]; done).
  rewrite Hp1.
  pose proof (group_step_poll p w1 Hk) as Hpoll.
  destruct (poll_frame p w1) as (p1 & w2 & E1 & Hpid1 & _). rewrite E1 in *.
  cbn [snd] in Hpoll.
  assert (Hgo : group_step w w2) by (by eapply group_step_trans).
  destruct (returncode p1); [exact Hgo|].
  pose proof (group_step_terminate p1 w2 ltac:(congruence)) as Hterm.
  destruct (terminate_frame p1 w2) as (p2 & w3 & E2 & _). rewrite E2 in *.
  cbn [snd] in *. by eapply group_step_trans.
Qed.

Lemma capture_session_others spawn evs dir l w :
  spawn w (tshark_args (interface l)) = Some k ->
  others_untouched k w (capture_session clock io_error spawn evs dir l w).2.
Proof.
  intros Hk.
  destruct (capture_session_eq clock io_error spawn evs dir l w)
    as (l0 & w0 & r & -> & H).
  rewrite start_eq, Hk in H. cbn [snd].
  set (l1 := set_proc l (Some (mkPopen k None))) in *.
  set (w1 := set_console _ _) in H.
  assert (Hlead : child_leads k w1).
  { intros q. unfold w1. cbn [procs set_console set_procs].
    rewrite lookup_insert_eq. by intros [= <-]. }
  assert (Hstart : others_untouched k w w1).
  { intros j q Hj _ Hq. unfold w1. cbn [procs set_console set_procs].
    by rewrite lookup_insert_ne. }
  pose proof (group_step_run evs l1 w1 (mkPopen k None) eq_refl eq_refl Hlead)
    as [Hlead2 Hrun].
  assert (Hmid : exists p, proc l0 = Some p /\ pid p = k
                 /\ w0 = (run clock io_error evs l1 w1).2).
  { destruct (run clock io_error evs l1 w1) as [[l2|e] w2] eqn:Erun.
    - destruct H as (-> & -> & _).
      apply run_keeps_listener_aux in Erun
        as (_ & _ & _ & _ & _ & _ & p & p' & Hp & Hp' & Hpid).
      injection Hp as <-. eauto.
    - destruct H as (-> & -> & _). eauto. }
  destruct Hmid as (p & Hp & Hpid & ->).
  destruct (group_step_shutdown l0 _ p Hp Hpid Hlead2) as [_ Hsd].
  intros j q Hj Hq Hjq. cbn [procs set_console].
  by apply Hsd, Hrun, Hstart.
Qed.

End Others.

(** X15: the session signals no process outside the group of the decoder
    it launched: whatever arrives, every other process whose group is not
    the decoder's is in the process table afterwards as it was before. *)
Theorem capture_session_spares_others (clock : nat -> string)
    (io_error : World -> Path -> bool)
    (spawn : World -> list string -> option Z) (evs : list event)
    (dir : Path) (l : TsharkListener) (w : World) (k : Z) :
  spawn w (tshark_args (interface l)) = Some k ->
  forall j q, j <> k -> pgid q <> k ->
    procs w !! j = Some q ->
    procs (capture_session clock io_error spawn evs dir l w).2 !! j = Some q.
Proof. intros Hk. by apply capture_session_others. Qed.

Lemma capture_session_spares_others_witness :
  procs (capture_session Demo.clock Demo.no_error DemoSession.spawn
           [Line Demo.alice; Interrupt; Interrupt] (PyPath.of_string "out")
           (init "eth0" (PyPath.of_string "out") "hashcat" true)
           DemoSession.busy_world).2 !! 7
  = Some (mkProcess 7 Running).
Proof.
  apply (capture_session_spares_others Demo.clock Demo.no_error
           DemoSession.spawn [Line Demo.alice; Interrupt; Interrupt]
           (PyPath.of_string "out")
           (init "eth0" (PyPath.of_string "out") "hashcat" true)
           DemoSession.busy_world 4242 eq_refl 7 (mkProcess 7 Running));
    [discriminate | discriminate | reflexivity].
Defined.

Section MainFacts.
Variable clock : nat -> string.
Variable io_error : World -> Path -> bool.
Variable spawn : World -> list string -> option Z.

Lemma ensure_output_dir_ok dir nf w :
  nf = true
  \/ (forall w' q, q ∈ PyPath.self_and_parents dir -> io_error w' q = false) ->
  exists w1, ensure_output_dir io_error dir nf w = (Ok tt, w1)
    /\ files w1 = files w /\ procs w1 = procs w
    /\ (nf = true -> dirs w1 = dirs w).
Proof.
  intros H. unfold ensure_output_dir. destruct nf; cbn [negb].
  - eexists. split; [reflexivity|]. done.
  - destruct H as [?|H]; [done|]. unfold_M. unfold mkdir_parents, print.
    destruct (mkdir_each_ok io_error _ w H) as (w1 & E & _).
    destruct (mkdir_each_frame io_error (PyPath.self_and_parents dir) w)
      as (Hf & _ & Hp & _).
    rewrite E in *. cbn [snd] in *.
    eexists. split; [reflexivity|]. done.
Qed.

End MainFacts.

(** X16: with persistence off, [main] from [ensure_output_dir] on creates
    and writes no file and no directory, whatever arrives and whether or not
    the decoder can be launched. *)
Theorem main_capture_no_files (clock : nat -> string)
    (io_error : World -> Path -> bool)
    (spawn : World -> list string -> option Z)
    (iface : string) (dir : Path) (fmt : string) (evs : list event)
    (w : World) :
  files (main_capture clock io_error spawn iface dir fmt true evs w).2 = files w
  /\ dirs (main_capture clock io_error spawn iface dir fmt true evs w).2 = dirs w.
Proof.
  rewrite main_capture_eq.
  destruct (ensure_output_dir_ok io_error dir true w (or_introl eq_refl))
    as (w1 & -> & Hf & _ & Hd).
  match goal with |- context [capture_session _ _ _ _ _ ?l ?w0] =>
    destruct (capture_session_frame clock io_error spawn evs dir l w0 eq_refl)
      as [-> ->]
  end.
  cbn [files dirs set_console]. split; [done|by apply Hd].
Qed.

(** X17: how [main] fails before the capture.  When [ensure_output_dir]
    raises, [main] raises the same at once: nothing is printed, no decoder
    is launched and no file is touched.  When the decoder cannot be launched it raises after the
    closing line, with the process table and the files as they were. *)
Theorem main_capture_failures (clock : nat -> string)
    (io_error : World -> Path -> bool)
    (spawn : World -> list string -> option Z)
    (iface : string) (dir : Path) (fmt : string) (nf : bool)
    (evs : list event) (w : World) :
  (forall e w1,
     ensure_output_dir io_error dir nf w = (Raise e, w1) ->
     main_capture clock io_error spawn iface dir fmt nf evs w = (Raise e, w1)
     /\ console w1 = console w /\ procs w1 = procs w /\ files w1 = files w)
  /\ (nf = true
      \/ (forall w' q, q ∈ PyPath.self_and_parents dir ->
                       io_error w' q = false) ->
      (forall w', spawn w' (tshark_args iface) = None) ->
      exists w',
        main_capture clock io_error spawn iface dir fmt nf evs w
          = (Raise OSError, w')
        /\ procs w' = procs w /\ files w' = files w
        /\ last (console w')
           = Some ("[+] Listener stopped. Check output files in: "
                   +:+ PyPath.to_string dir)).
Proof.
  split.
  - intros e w1 E. rewrite main_capture_eq, E. split; [done|].
    destruct nf; [done|].
    destruct (ensure_output_dir_raises io_error dir w e w1 E)
      as (-> & Hc & Hf & Hp & _). done.
  - intros Hdir Hsp. rewrite main_capture_eq.
    destruct (ensure_output_dir_ok io_error dir nf w Hdir)
      as (w1 & -> & Hf & Hp & _).
    unfold capture_session. rewrite start_eq.
    change (interface (init iface dir fmt nf)) with iface. rewrite Hsp.
    rewrite closing_eq, shutdown_eq. cbn [proc init snd].
    eexists. split; [reflexivity|].
    cbn [procs files console set_console]. split; [done|]. split; [done|].
    apply last_snoc.
Qed.

Lemma main_capture_failures_witness :
  (exists w1,
     main_capture Demo.clock
       (Demo.refuse (PyPath.of_string "/root/captures")) DemoSession.spawn
       "eth0" (PyPath.of_string "/root/captures") "hashcat" false
       [Line Demo.alice] DemoSession.busy_world
     = (Raise OSError, w1)
     /\ console w1 = console DemoSession.busy_world
     /\ procs w1 = procs DemoSession.busy_world)
  /\ exists w',
       main_capture Demo.clock Demo.no_error DemoSession.no_spawn
         "eth0" (PyPath.of_string "out") "hashcat" false
         [Line Demo.alice] DemoSession.busy_world = (Raise OSError, w')
       /\ procs w' = procs DemoSession.busy_world
       /\ files w' = files DemoSession.busy_world
       /\ last (console w')
          = Some ("[+] Listener stopped. Check output files in: "
                  +:+ PyPath.to_string (PyPath.of_string "out")).
Proof.
  split.
  - eexists.
    assert (E : ensure_output_dir
                  (Demo.refuse (PyPath.of_string "/root/captures"))
                  (PyPath.of_string "/root/captures") false
                  DemoSession.busy_world = (Raise OSError, _))
      by (vm_compute; reflexivity).
    destruct (proj1 (main_capture_failures Demo.clock
                       (Demo.refuse (PyPath.of_string "/root/captures"))
                       DemoSession.spawn "eth0"
                       (PyPath.of_string "/root/captures")
                       "hashcat" false [Line Demo.alice]
                       DemoSession.busy_world) _ _ E)
      as (Hrun & Hc & Hp & _).
    split; [exact Hrun|]. split; [exact Hc|exact Hp].
  - apply (proj2 (main_capture_failures Demo.clock Demo.no_error
                    DemoSession.no_spawn "eth0" (PyPath.of_string "out")
                    "hashcat" false [Line Demo.alice] DemoSession.busy_world)).
    + right. intros w' q _. reflexivity.
    + intros w'. reflexivity.
Defined.
